(** * selenium-search/fetch.py : the headless page fetcher

    A shallow embedding of [validate_url], [build_driver], [fetch] and
    [main] of [selenium-search/fetch.py], and the properties of the
    fetch orchestrator stated in the specification.

    Modelling conventions.

    - A Python [str] is a [string]; its characters are the code points
      below 256.  [str.strip] removes the characters for which
      [str.isspace] holds; in that range these are 9-13, 28-32, 133, 160.
    - [timeout] is a Python [int]: [Z].  [wait_seconds] is a Python
      [float]: a primitive binary64 [float], compared with [PrimFloat.ltb].
    - An exception is a value [exn]: its class and the text [str(e)]
      renders.  Only subclasses of [Exception] are modelled; the
      interpreter's own signals ([KeyboardInterrupt], [SystemExit]) are
      outside the model.
    - The browser is the environment.  Every operation the program invokes
      on Selenium is a [call]; the environment, a [Browser], answers it as
      a function of the whole history of calls (the current call is its
      last element), and the program logs the call with its outcome.  This
      covers every deterministic browser, also one whose page changes
      between two reads.  [WebDriverWait(...).until(...)] is library code
      and is one call: it returns, raises [TimeoutException] when its
      deadline is exhausted, or lets another exception through.
    - Statements run in a state and error monad [M]; the state holds the
      log of calls with their outcomes, [fetch]'s local variable [driver],
      and what was printed to the two output streams. *)

From Stdlib Require Import String Ascii List ZArith Bool Lia PeanoNat.
From Stdlib Require Import Floats.
Import ListNotations.
Open Scope string_scope.
Open Scope list_scope.

(** Concatenation of strings; [++] is kept for lists. *)
Infix "+++" := String.append (right associativity, at level 60).

Set Implicit Arguments.

(** ** Strings *)

Module Str.

(** [str.isspace] on one character (code points below 256). *)
Definition isspace (c : ascii) : bool :=
  let n := nat_of_ascii c in
  (Nat.leb 9 n && Nat.leb n 13) || (Nat.leb 28 n && Nat.leb n 32)
  || Nat.eqb n 133 || Nat.eqb n 160.

Fixpoint lstrip (s : string) : string :=
  match s with
  | EmptyString => EmptyString
  | String c s' => if isspace c then lstrip s' else s
  end.

Fixpoint rstrip (s : string) : string :=
  match s with
  | EmptyString => EmptyString
  | String c s' =>
      match rstrip s' with
      | EmptyString => if isspace c then EmptyString else String c EmptyString
      | r => String c r
      end
  end.

(** [s.strip()] *)
Definition strip (s : string) : string := rstrip (lstrip s).

(** [s.startswith(p)] *)
Definition startswith (s p : string) : bool := String.prefix p s.

(** Truth value of a [str]: non-empty. *)
Definition truthy (s : string) : bool :=
  match s with EmptyString => false | _ => true end.

(** Truth value of an [Optional[str]]: neither [None] nor empty. *)
Definition truthy_opt (o : option string) : bool :=
  match o with Some s => truthy s | None => false end.

(** [sep.join(l)] *)
Fixpoint join (sep : string) (l : list string) : string :=
  match l with
  | [] => ""
  | [x] => x
  | x :: l' => x +++ sep +++ join sep l'
  end.

(** [c * n] for a one-character string. *)
Fixpoint repeat (c : ascii) (n : nat) : string :=
  match n with O => "" | S n' => String c (repeat c n') end.

(** [sub in s] *)
Fixpoint contains (sub s : string) : bool :=
  String.prefix sub s
  || match s with EmptyString => false | String _ s' => contains sub s' end.

Fixpoint all_space (s : string) : bool :=
  match s with
  | EmptyString => true
  | String c s' => isspace c && all_space s'
  end.

Definition nl : string := String (ascii_of_nat 10) "".

End Str.

(** ** Exceptions *)

Inductive exn_class : Type :=
| TimeoutException      (* selenium; a subclass of WebDriverException *)
| WebDriverException    (* selenium; every other subclass included *)
| ValueError
| OtherException.       (* any other subclass of Exception *)

Record exn : Type := mk_exn { cls : exn_class; str_of : string }.

Definition is_TimeoutException (e : exn) : bool :=
  match cls e with TimeoutException => true | _ => false end.

Definition is_WebDriverException (e : exn) : bool :=
  match cls e with TimeoutException | WebDriverException => true | _ => false end.

Definition is_ValueError (e : exn) : bool :=
  match cls e with ValueError => true | _ => false end.

Inductive res (A : Type) : Type :=
| Ok (a : A)
| Raise (e : exn).
Arguments Raise {A} e.

(** ** validate_url (lines 93-99) *)

Definition validate_url (url : string) : res string :=
  let u := Str.strip url in
  if negb (Str.truthy u) then
    Raise (mk_exn ValueError "empty_url")
  else if negb (Str.startswith u "http://" || Str.startswith u "https://") then
    Raise (mk_exn ValueError "url_must_start_with_http_or_https")
  else Ok u.

(** ** The browser as environment *)

(** Values of Chrome's experimental options. *)
Inductive optval : Type :=
| OBool (v : bool)
| OStrs (l : list string)
| OPrefs (l : list (string * bool)).

Record ChromeOptions : Type := mk_options {
  binary_location : option string;
  arguments : list string;
  experimental_options : list (string * optval)
}.

(** The handle [webdriver.Chrome(...)] returns; a fetch owns one. *)
Inductive WebDriver : Type := Chrome.

(** A [WebElement] is a reference into the page. *)
Definition WebElement : Type := nat.

(** Every operation [fetch.py] invokes on Selenium (and [time.sleep]). *)
Inductive call : Type :=
| NewChrome (service : option string) (opts : ChromeOptions)
    (* webdriver.Chrome(service=..., options=...) *)
| ExecuteCdpCmd (cmd source : string)
| SetPageLoadTimeout (t : Z)
| Get (url : string)
| WaitReady (t : Z)
    (* WebDriverWait(driver, t).until(readyState in (interactive, complete)) *)
| Sleep (seconds : float)
| WaitPresence (t : Z) (selector : string)
    (* WebDriverWait(driver, t).until(presence_of_element_located(selector)) *)
| SaveScreenshot (path : string)
| FindElements (selector : string)
| GetText (e : WebElement)
| OuterHTML (e : WebElement)
    (* execute_script("return arguments[0].outerHTML;", e) *)
| FindBody
    (* find_element(By.TAG_NAME, "body") *)
| PageSource
| Quit.

(** The environment: the process environment variables, and the answer to
    the last call of a history, by the type of value the call returns. *)
Record Browser : Type := mk_browser {
  environ : string -> option string;
  answer_unit : list call -> res unit;
  answer_str : list call -> res string;
  answer_elems : list call -> res (list WebElement);
  answer_elem : list call -> res WebElement
}.

(** ** The state and error monad *)

(** What the log keeps of a call: the call and whether it raised. *)
Record event : Type := mk_event {
  ev_call : call;
  ev_raised : option exn
}.

Definition raised {A} (r : res A) : option exn :=
  match r with Ok _ => None | Raise e => Some e end.

Record State : Type := mk_state {
  log : list event;            (* the calls made so far, oldest first *)
  driver : option WebDriver;   (* the local variable [driver] of [fetch] *)
  stdout : string;
  stderr : string
}.

Definition initial : State :=
  {| log := []; driver := None; stdout := ""; stderr := "" |}.

(** The history the environment sees: the calls, without their outcomes. *)
Definition history (st : State) : list call := map ev_call (log st).

(** The state after further events. *)
Definition logged (st : State) (evs : list event) : State :=
  {| log := log st ++ evs; driver := driver st;
     stdout := stdout st; stderr := stderr st |}.

Definition M (A : Type) : Type := State -> res A * State.

Definition ret {A} (a : A) : M A := fun st => (Ok a, st).

Definition bind {A B} (m : M A) (k : A -> M B) : M B :=
  fun st =>
    match m st with
    | (Ok a, st') => k a st'
    | (Raise e, st') => (Raise e, st')
    end.

Declare Scope monad_scope.
Delimit Scope monad_scope with monad.
Notation "x <- m ;; k" := (bind m (fun x => k))
  (at level 61, m at next level, right associativity) : monad_scope.
Notation "m ;; k" := (bind m (fun _ => k))
  (at level 61, right associativity) : monad_scope.
Open Scope monad_scope.

(** A pure computation that may raise. *)
Definition lift {A} (r : res A) : M A := fun st => (r, st).

(** [try: body / except ...: handler / (then) orelse]: [handler e] is the
    first [except] clause that matches [e], if any; an exception raised by
    the handler or by what follows the statement is not caught. *)
Definition try_except {A B} (body : M A) (handler : exn -> option (M B))
    (orelse : A -> M B) : M B :=
  fun st =>
    match body st with
    | (Ok a, st') => orelse a st'
    | (Raise e, st') =>
        match handler e with
        | Some h => h st'
        | None => (Raise e, st')
        end
    end.

(** [try: body / except C: pass] *)
Definition try_pass (body : M unit) (catches : exn -> bool) : M unit :=
  try_except body (fun e => if catches e then Some (ret tt) else None) ret.

(** [try: body / finally: final]: [final] runs on every exit of [body];
    the outcome of [body] stands unless [final] itself raises. *)
Definition try_finally {A} (body : M A) (final : M unit) : M A :=
  fun st =>
    match body st with
    | (r, st1) =>
        match final st1 with
        | (Ok _, st2) => (r, st2)
        | (Raise e, st2) => (Raise e, st2)
        end
    end.

Definition Exception (e : exn) : bool := true.

Definition set_driver (d : option WebDriver) : M unit :=
  fun st => (Ok tt, {| log := log st; driver := d;
                       stdout := stdout st; stderr := stderr st |}).

Definition get_driver : M (option WebDriver) :=
  fun st => (Ok (driver st), st).

(** [print(s)] and [print(s, file=sys.stderr)] *)
Definition print_out (s : string) : M unit :=
  fun st => (Ok tt, {| log := log st; driver := driver st;
                       stdout := stdout st +++ s +++ Str.nl; stderr := stderr st |}).

Definition print_err (s : string) : M unit :=
  fun st => (Ok tt, {| log := log st; driver := driver st;
                       stdout := stdout st; stderr := stderr st +++ s +++ Str.nl |}).

Section Program.

Variable b : Browser.

(** One call: answered by the environment from the history that ends with
    it, and recorded in the log with its outcome. *)
Definition invoke {A} (answer : Browser -> list call -> res A) (c : call) : M A :=
  fun st =>
    let r := answer b (history st ++ [c]) in
    (r, logged st [mk_event c (raised r)]).

(** [os.getenv(name, default)] *)
Definition getenv (name default : string) : string :=
  match environ b name with Some v => v | None => default end.

(** [s or None] *)
Definition or_none (s : string) : option string :=
  if Str.truthy s then Some s else None.

(** *** build_driver (lines 35-90) *)

Definition hardening_flags : list string :=
  [ "--no-sandbox"; "--disable-dev-shm-usage"; "--disable-gpu";
    "--window-size=1365,768"; "--disable-extensions";
    "--disable-background-networking"; "--disable-default-apps";
    "--disable-sync"; "--metrics-recording-only"; "--no-first-run";
    "--password-store=basic"; "--use-mock-keychain" ].

Definition webdriver_override : string :=
  Str.nl +++ "Object.defineProperty(navigator, 'webdriver', {get: () => undefined});"
         +++ Str.nl.

(** The options assembled on lines 39-72. *)
Definition chrome_options (headless : bool) : ChromeOptions :=
  let chrome_binary := or_none (Str.strip (getenv "CHROME_BINARY" "")) in
  {| binary_location := chrome_binary;
     arguments := (if headless then ["--headless=new"] else []) ++ hardening_flags;
     experimental_options :=
       [ ("excludeSwitches", OStrs ["enable-automation"]);
         ("useAutomationExtension", OBool false);
         ("prefs", OPrefs [ ("download.prompt_for_download", false);
                            ("download.directory_upgrade", true);
                            ("safebrowsing.enabled", true) ]) ] |}.

(** The executable of the service of line 74, if one is configured. *)
Definition chromedriver_path : option string :=
  or_none (Str.strip (getenv "CHROMEDRIVER_PATH" "")).

Definition new_chrome (headless : bool) : call :=
  NewChrome chromedriver_path (chrome_options headless).

Definition hide_webdriver : call :=
  ExecuteCdpCmd "Page.addScriptToEvaluateOnNewDocument" webdriver_override.

Definition build_driver (headless : bool) : M WebDriver :=
  invoke answer_unit (new_chrome headless) ;;
  try_pass (invoke answer_unit hide_webdriver) Exception ;;
  ret Chrome.

(** *** fetch (lines 102-173) *)

(** [if o: body(o)] for an [Optional[str]] *)
Definition when_given (o : option string) (body : string -> M unit) : M unit :=
  match o with
  | Some s => if Str.truthy s then body s else ret tt
  | None => ret tt
  end.

(** Lines 113-142: page-load timeout, navigation, the wait for the
    document, the fixed wait, the wait for the selector, the screenshot. *)
Definition open_page (url : string) (timeout : Z) (wait_seconds : float)
    (selector screenshot_path : option string) : M unit :=
  invoke answer_unit (SetPageLoadTimeout timeout) ;;
  invoke answer_unit (Get url) ;;
  try_pass (invoke answer_unit (WaitReady timeout)) is_TimeoutException ;;
  (if PrimFloat.ltb 0%float wait_seconds
   then invoke answer_unit (Sleep wait_seconds) else ret tt) ;;
  when_given selector (fun s =>
    try_pass (invoke answer_unit (WaitPresence timeout s)) is_TimeoutException) ;;
  when_given screenshot_path (fun p =>
    invoke answer_unit (SaveScreenshot p)).

(** [[e.text for e in elems if e.text]]: the property is read once for
    the test and once more for the value. *)
Fixpoint visible_texts (elems : list WebElement) : M (list string) :=
  match elems with
  | [] => ret []
  | e :: rest =>
      t <- invoke answer_str (GetText e) ;;
      if Str.truthy t then
        v <- invoke answer_str (GetText e) ;;
        vs <- visible_texts rest ;;
        ret (v :: vs)
      else visible_texts rest
  end.

(** [[driver.execute_script("return arguments[0].outerHTML;", e) for e in elems]] *)
Fixpoint outer_htmls (elems : list WebElement) : M (list string) :=
  match elems with
  | [] => ret []
  | e :: rest =>
      v <- invoke answer_str (OuterHTML e) ;;
      vs <- outer_htmls rest ;;
      ret (v :: vs)
  end.

Definition blank_line : string := Str.nl +++ Str.nl.

(** Lines 157-166: the whole page. *)
Definition whole_document (as_text : bool) : M string :=
  if as_text then
    try_except
      (body <- invoke answer_elem FindBody ;;
       invoke answer_str (GetText body))
      (fun e => if Exception e then Some (invoke answer_str PageSource) else None)
      ret
  else invoke answer_str PageSource.

(** Lines 145-166: the content. *)
Definition extract_content (selector : option string) (as_text : bool) : M string :=
  match selector with
  | Some s =>
      if Str.truthy s then
        elems <- invoke answer_elems (FindElements s) ;;
        match elems with
        | _ :: _ =>
            if as_text then
              ts <- visible_texts elems ;; ret (Str.join blank_line ts)
            else
              hs <- outer_htmls elems ;; ret (Str.join blank_line hs)
        | [] => whole_document as_text
        end
      else whole_document as_text
  | None => whole_document as_text
  end.

(** Lines 168-173: the [finally] clause. *)
Definition release : M unit :=
  d <- get_driver ;;
  match d with
  | Some _ => try_pass (invoke answer_unit Quit) Exception
  | None => ret tt
  end.

(** Lines 112-166: the [try] block. *)
Definition fetch_try (url : string) (timeout : Z) (wait_seconds : float)
    (selector : option string) (as_text : bool)
    (screenshot_path : option string) : M string :=
  d <- build_driver true ;;
  set_driver (Some d) ;;
  open_page url timeout wait_seconds selector screenshot_path ;;
  extract_content selector as_text.

Definition fetch (url : string) (timeout : Z) (wait_seconds : float)
    (selector : option string) (as_text : bool)
    (screenshot_path : option string) : M string :=
  set_driver None ;;
  try_finally
    (fetch_try url timeout wait_seconds selector as_text screenshot_path)
    release.

(** *** main (lines 176-224) *)

(** The namespace [ap.parse_args()] returns. *)
Record Args : Type := mk_args {
  arg_url : string;
  arg_timeout : Z;
  arg_wait : float;
  arg_selector : option string;
  arg_text : bool;
  arg_screenshot : option string
}.

Definition mode_name (text : bool) : string := if text then "text" else "html".

Definition main (args : Args) : M Z :=
  try_except (lift (validate_url (arg_url args)))
    (fun e =>
       if is_ValueError e
       then Some (print_err ("error: " +++ str_of e) ;; ret 2%Z)
       else None)
    (fun url =>
       try_except
         (fetch url (arg_timeout args) (arg_wait args) (arg_selector args)
                (arg_text args) (arg_screenshot args))
         (fun e =>
            if is_WebDriverException e
            then Some (print_err ("error: selenium_webdriver_failed: " +++ str_of e) ;;
                       ret 1%Z)
            else if Exception e
            then Some (print_err ("error: fetch_failed: " +++ str_of e) ;; ret 1%Z)
            else None)
         (fun content =>
            print_out ("[selenium-fetch] url=" +++ url) ;;
            match arg_selector args with
            | Some s =>
                if Str.truthy s
                then print_out ("[selenium-fetch] selector=" +++ s +++ " mode="
                                  +++ mode_name (arg_text args))
                else print_out ("[selenium-fetch] mode=" +++ mode_name (arg_text args))
            | None => print_out ("[selenium-fetch] mode=" +++ mode_name (arg_text args))
            end ;;
            when_given (arg_screenshot args) (fun p =>
              print_out ("[selenium-fetch] screenshot=" +++ p)) ;;
            print_out (Str.repeat "-" 80) ;;
            print_out content ;;
            ret 0%Z)).

(** *** The script (lines 227-228)

    [if __name__ == "__main__": main()]: the value [main] returns is the
    value of an expression statement and is dropped; the interpreter
    ends with status 0 when the module body completes and 1 when an
    exception escapes. *)
Record Process : Type := mk_process {
  exit_status : Z;
  final : State
}.

Definition script (args : Args) : Process :=
  match main args initial with
  | (Ok _, st) => {| exit_status := 0; final := st |}
  | (Raise _, st) => {| exit_status := 1; final := st |}
  end.

End Program.

(** * Vocabulary of the properties *)

(** ** Pages and scripted browsers *)

(** What the reads of [fetch] observe of a page that stands still. *)
Record Page : Type := mk_page {
  select : string -> list WebElement;     (* find_elements, document order *)
  text : WebElement -> string;            (* e.text *)
  outer_html : WebElement -> string;      (* e.outerHTML *)
  body : option WebElement;               (* the body element, if any *)
  page_source : string
}.

(** The browser shows page [p]: every read, whatever came before it,
    answers from [p]. *)
Definition shows (b : Browser) (p : Page) : Prop :=
  (forall h s, answer_elems b (h ++ [FindElements s]) = Ok (select p s)) /\
  (forall h e, answer_str b (h ++ [GetText e]) = Ok (text p e)) /\
  (forall h e, answer_str b (h ++ [OuterHTML e]) = Ok (outer_html p e)) /\
  (forall h, match body p with
             | Some e => answer_elem b (h ++ [FindBody]) = Ok e
             | None => exists x, answer_elem b (h ++ [FindBody]) = Raise x
             end) /\
  (forall h, answer_str b (h ++ [PageSource]) = Ok (page_source p)).

(** What the whole page gives in each mode (lines 157-166 on [p]). *)
Definition document_content (p : Page) (as_text : bool) : string :=
  if as_text then
    match body p with
    | Some e => text p e
    | None => page_source p
    end
  else page_source p.

(** The content of the matched elements (lines 148-155 on [p]). *)
Definition selected_content (p : Page) (elems : list WebElement)
    (as_text : bool) : string :=
  if as_text
  then Str.join blank_line (filter Str.truthy (map (text p) elems))
  else Str.join blank_line (map (outer_html p) elems).

(** The content of [p] for a selector and a mode (lines 145-166 on [p]). *)
Definition page_content (p : Page) (selector : option string)
    (as_text : bool) : string :=
  match selector with
  | Some s =>
      if Str.truthy s then
        match select p s with
        | [] => document_content p as_text
        | elems => selected_content p elems as_text
        end
      else document_content p as_text
  | None => document_content p as_text
  end.

(** What [find_element] raises when nothing matches. *)
Definition no_such_element : exn :=
  mk_exn WebDriverException "Message: no such element".

(** A browser that shows [p] and where a call fails as [faults] says,
    looking at the current call only. *)
Definition serve (p : Page) (faults : call -> option exn) : Browser :=
  let answer {A} (value : call -> res A) (h : list call) : res A :=
    match faults (last h Quit) with
    | Some e => Raise e
    | None => value (last h Quit)
    end in
  {| environ := fun _ => None;
     answer_unit := answer (fun _ => Ok tt);
     answer_str := answer (fun c =>
       match c with
       | GetText e => Ok (text p e)
       | OuterHTML e => Ok (outer_html p e)
       | _ => Ok (page_source p)
       end);
     answer_elems := answer (fun c =>
       match c with
       | FindElements s => Ok (select p s)
       | _ => Ok []
       end);
     answer_elem := answer (fun _ =>
       match body p with
       | Some e => Ok e
       | None => Raise no_such_element
       end) |}.

(** No call fails. *)
Definition no_faults : call -> option exn := fun _ => None.

(** A page with two paragraphs under the selector [p]. *)
Definition two_paragraphs : Page :=
  {| select := fun s => if String.eqb s "p" then [1; 2]%nat else [];
     text := fun e => match e with 0%nat => "A B" | 1%nat => "A" | _ => "B" end;
     outer_html := fun e =>
       match e with
       | 0%nat => "<body><p>A</p><p>B</p></body>"
       | 1%nat => "<p>A</p>"
       | _ => "<p>B</p>"
       end;
     body := Some 0%nat;
     page_source := "<html><body><p>A</p><p>B</p></body></html>" |}.

(** A page with a list of two items, the first without visible text. *)
Definition blank_then_hello : Page :=
  {| select := fun s => if String.eqb s "li" then [1; 2]%nat else [];
     text := fun e => match e with 1%nat => "" | _ => "Hello" end;
     outer_html := fun e =>
       match e with 1%nat => "<li></li>" | _ => "<li>Hello</li>" end;
     body := Some 0%nat;
     page_source := "<html><body><li></li><li>Hello</li></body></html>" |}.

(** [driver.quit()] raises. *)
Definition quit_fails : call -> option exn :=
  fun c => match c with
           | Quit => Some (mk_exn WebDriverException "Message: session deleted")
           | _ => None
           end.

(** [driver.get] exceeds the page-load timeout. *)
Definition navigation_times_out : call -> option exn :=
  fun c => match c with
           | Get _ => Some (mk_exn TimeoutException "Message: timeout")
           | _ => None
           end.

(** [driver.get] fails; the text of a [WebDriverException] has a line for
    the message and lines for the stack trace. *)
Definition navigation_fails : call -> option exn :=
  fun c => match c with
           | Get _ =>
               Some (mk_exn WebDriverException
                       ("Message: unknown error: net::ERR_NAME_NOT_RESOLVED"
                          +++ Str.nl +++ "Stacktrace:" +++ Str.nl))
           | _ => None
           end.


(** ** Calls and events *)

(** The calls of each part of [fetch]. *)
Definition start_call (c : call) : Prop :=
  match c with NewChrome _ _ | ExecuteCdpCmd _ _ => True | _ => False end.

Definition page_call (url : string) (timeout : Z) (wait_seconds : float)
    (selector screenshot_path : option string) (c : call) : Prop :=
  match c with
  | SetPageLoadTimeout t => t = timeout
  | Get u => u = url
  | WaitReady t => t = timeout
  | Sleep s => s = wait_seconds /\ PrimFloat.ltb 0%float wait_seconds = true
  | WaitPresence t s => t = timeout /\ selector = Some s /\ Str.truthy s = true
  | SaveScreenshot p => screenshot_path = Some p /\ Str.truthy p = true
  | _ => False
  end.

Definition read_call (selector : option string) (c : call) : Prop :=
  match c with
  | FindElements s => selector = Some s /\ Str.truthy s = true
  | GetText _ | OuterHTML _ | FindBody | PageSource => True
  | _ => False
  end.

Definition quit_call (c : call) : Prop :=
  match c with Quit => True | _ => False end.

(** The calls [fetch] can make for given arguments. *)
Definition fetch_call (url : string) (timeout : Z) (wait_seconds : float)
    (selector screenshot_path : option string) (c : call) : Prop :=
  start_call c \/ page_call url timeout wait_seconds selector screenshot_path c
  \/ read_call selector c \/ quit_call c.

(** The same, of events. *)
Definition is_start (ev : event) : Prop := start_call (ev_call ev).

Definition is_page url timeout wait_seconds selector screenshot_path
    (ev : event) : Prop :=
  page_call url timeout wait_seconds selector screenshot_path (ev_call ev).

Definition is_read selector (ev : event) : Prop :=
  read_call selector (ev_call ev).

Definition is_screenshot (c : call) : Prop :=
  match c with SaveScreenshot _ => True | _ => False end.

Definition is_wait (c : call) : Prop :=
  match c with WaitReady _ | WaitPresence _ _ => True | _ => False end.



(** The deadlines one fetch hands to navigation, to the wait for the
    document and to the wait for the selector. *)
Definition deadline_of (c : call) : option Z :=
  match c with
  | SetPageLoadTimeout t | WaitReady t | WaitPresence t _ => Some t
  | _ => None
  end.

(** The claim as the specification words it: the three deadlines can be
    chosen separately. *)
Definition deadlines_set_separately (nav load sel : Z) : Prop :=
  exists b url timeout wait_seconds s as_text screenshot_path,
    let h := history (snd (fetch b url timeout wait_seconds (Some s) as_text
                                 screenshot_path initial)) in
    In (SetPageLoadTimeout nav) h /\ In (WaitReady load) h /\
    In (WaitPresence sel s) h.

(** ** Frame conditions

    A relation [F] between the state before and the state after, closed
    under reflexivity and transitivity, that holds of one logged event
    whenever the event satisfies [P], holds of every run of a computation
    whose calls all satisfy [P]. *)

(** [frames F m]: every run of [m] takes a state to one related to it by
    [F]. *)
Definition frames (F : State -> State -> Prop) {A} (m : M A) : Prop :=
  forall st, F st (snd (m st)).

(** Only the log changes, by events that satisfy [P]. *)
Definition appends (P : event -> Prop) (st st' : State) : Prop :=
  exists evs, st' = logged st evs /\ Forall P evs.

(** The log grows by events that satisfy [P]. *)
Definition extends (P : event -> Prop) (st st' : State) : Prop :=
  exists evs, log st' = log st ++ evs /\ Forall P evs.

(** Nothing is printed. *)
Definition same_streams (st st' : State) : Prop :=
  stdout st' = stdout st /\ stderr st' = stderr st.

(** The log does not shrink. *)
Definition grows (st st' : State) : Prop :=
  length (log st) <= length (log st').

(** [emits P m]: [m] only ever appends to the log, and what it appends
    satisfies [P]. *)
Definition emits {A} (P : event -> Prop) (m : M A) : Prop :=
  frames (extends P) m.

(** [calls m]: every run of [m] makes at least one call. *)
Definition calls {A} (m : M A) : Prop :=
  forall st, length (log st) < length (log (snd (m st))).

(** ** States of a run *)

(** The state after [driver = d]. *)
Definition with_driver (d : option WebDriver) (st : State) : State :=
  {| log := log st; driver := d; stdout := stdout st; stderr := stderr st |}.

(** The state after [driver.quit()], whatever its outcome. *)
Definition quit_quietly (b : Browser) (st : State) : State :=
  logged st [mk_event Quit (raised (answer_unit b (history st ++ [Quit])))].

(** ** The stages before the content is read

    Lines 113-142 are a straight line of calls, each fatal when it raises
    unless its own [try] swallows the exception.  A stage is a call with
    the exceptions that are swallowed. *)

Definition stage : Type := call * (exn -> bool).

(** Nothing is swallowed. *)
Definition fatal : exn -> bool := fun _ => false.

Fixpoint run_stages (b : Browser) (p : list stage) : M unit :=
  match p with
  | [] => ret tt
  | (c, swallowed) :: rest =>
      try_pass (invoke b answer_unit c) swallowed ;; run_stages b rest
  end.

(** Navigation and the waits. *)
Definition wait_stages (url : string) (timeout : Z) (wait_seconds : float)
    (selector : option string) : list stage :=
  [ (SetPageLoadTimeout timeout, fatal);
    (Get url, fatal);
    (WaitReady timeout, is_TimeoutException) ]
  ++ (if PrimFloat.ltb 0%float wait_seconds then [(Sleep wait_seconds, fatal)] else [])
  ++ match selector with
     | Some s =>
         if Str.truthy s then [(WaitPresence timeout s, is_TimeoutException)] else []
     | None => []
     end.

(** The screenshot, when a path is given. *)
Definition screenshot_stage (screenshot_path : option string) : list stage :=
  match screenshot_path with
  | Some p => if Str.truthy p then [(SaveScreenshot p, fatal)] else []
  | None => []
  end.

Definition page_stages (url : string) (timeout : Z) (wait_seconds : float)
    (selector screenshot_path : option string) : list stage :=
  wait_stages url timeout wait_seconds selector
  ++ screenshot_stage screenshot_path.

(** An event of a stage that let the run go on: the stage's call, which
    returned or raised what the stage swallows. *)
Definition passed (ev : event) (sg : stage) : Prop :=
  ev_call ev = fst sg /\
  match ev_raised ev with
  | None => True
  | Some e => snd sg e = true
  end.

(** The events of a run of stages: either every stage passed, or the
    stages before one passed and that one raised what it does not
    swallow, which ends the run. *)
Inductive stages_outcome (p : list stage) (evs : list event) : res unit -> Prop :=
| all_passed :
    Forall2 passed evs p ->
    stages_outcome p evs (Ok tt)
| one_failed p1 sg p2 evs1 e :
    p = p1 ++ sg :: p2 ->
    evs = evs1 ++ [mk_event (fst sg) (Some e)] ->
    Forall2 passed evs1 p1 ->
    snd sg e = false ->
    stages_outcome p evs (Raise e).

(** Every run of [fetch] is of one of three kinds: no session; a session
    and a stage that failed; a session, all stages, and the reads. *)
Inductive fetch_outcome (b : Browser) (url : string) (timeout : Z)
    (wait_seconds : float) (selector : option string) (as_text : bool)
    (screenshot_path : option string)
    : list event -> res string -> Prop :=
| no_session e :
    fetch_outcome b url timeout wait_seconds selector as_text screenshot_path
      [mk_event (new_chrome b true) (Some e)] (Raise e)
| stage_failed q evs2 e q' :
    stages_outcome
      (page_stages url timeout wait_seconds selector screenshot_path)
      evs2 (Raise e) ->
    fetch_outcome b url timeout wait_seconds selector as_text screenshot_path
      ([mk_event (new_chrome b true) None; mk_event hide_webdriver q]
         ++ evs2 ++ [mk_event Quit q'])
      (Raise e)
| content_read q evs2 evs3 r q' :
    stages_outcome
      (page_stages url timeout wait_seconds selector screenshot_path)
      evs2 (Ok tt) ->
    Forall (is_read selector) evs3 ->
    evs3 <> [] ->
    (exists st', r = fst (extract_content b selector as_text st')) ->
    fetch_outcome b url timeout wait_seconds selector as_text screenshot_path
      ([mk_event (new_chrome b true) None; mk_event hide_webdriver q]
         ++ evs2 ++ evs3 ++ [mk_event Quit q'])
      r.

(** ** The command line *)

(** The two exceptions of [validate_url]. *)
Definition empty_url : exn := mk_exn ValueError "empty_url".

Definition bad_scheme : exn :=
  mk_exn ValueError "url_must_start_with_http_or_https".

(** The tag [main] prints for an exception of [fetch]. *)
Definition failure_kind (e : exn) : string :=
  if is_WebDriverException e then "selenium_webdriver_failed" else "fetch_failed".

(** The lines [main] prints before the content. *)
Definition header (url : string) (args : Args) : string :=
  "[selenium-fetch] url=" +++ url +++ Str.nl
  +++ match arg_selector args with
      | Some s =>
          if Str.truthy s
          then "[selenium-fetch] selector=" +++ s +++ " mode="
               +++ mode_name (arg_text args) +++ Str.nl
          else "[selenium-fetch] mode=" +++ mode_name (arg_text args) +++ Str.nl
      | None => "[selenium-fetch] mode=" +++ mode_name (arg_text args) +++ Str.nl
      end
  +++ match arg_screenshot args with
      | Some p =>
          if Str.truthy p
          then "[selenium-fetch] screenshot=" +++ p +++ Str.nl
          else ""
      | None => ""
      end
  +++ Str.repeat "-" 80 +++ Str.nl.

(** The claim as the specification words it: one line, made of
    [error: ], a kind, [: ], a detail. *)
Definition error_line (s : string) : Prop :=
  exists kind detail,
    s = "error: " +++ kind +++ ": " +++ detail +++ Str.nl /\
    Str.contains Str.nl kind = false /\
    Str.contains Str.nl detail = false.

(** [s[n:]] *)
Fixpoint drop (n : nat) (s : string) : string :=
  match n, s with
  | S n', String _ s' => drop n' s'
  | _, _ => s
  end.

(** [s.count("\n")] *)
Fixpoint count_nl (s : string) : nat :=
  match s with
  | EmptyString => 0
  | String c s' => (if Ascii.eqb c (ascii_of_nat 10) then 1 else 0) + count_nl s'
  end.

(** ** Vocabulary of the further properties *)

(** [s[:1].isspace()] *)
Definition starts_with_space (s : string) : bool :=
  match s with
  | EmptyString => false
  | String c _ => Str.isspace c
  end.

(** [s[-1:].isspace()] *)
Fixpoint ends_with_space (s : string) : bool :=
  match s with
  | EmptyString => false
  | String c EmptyString => Str.isspace c
  | String _ s' => ends_with_space s'
  end.

(** The calls of a fetch that goes through every stage, in the order of
    lines 112-142. *)
Definition fetch_plan (b : Browser) (url : string) (timeout : Z)
    (wait_seconds : float) (selector screenshot_path : option string)
    : list call :=
  [new_chrome b true; hide_webdriver]
  ++ map fst (page_stages url timeout wait_seconds selector screenshot_path).

Definition is_get (c : call) : bool :=
  match c with Get _ => true | _ => false end.

Definition is_sleep (c : call) : bool :=
  match c with Sleep _ => true | _ => false end.

(** The calls of lines 113-142. *)
Definition is_stage_call (c : call) : Prop :=
  match c with
  | SetPageLoadTimeout _ | Get _ | WaitReady _ | Sleep _
  | WaitPresence _ _ | SaveScreenshot _ => True
  | _ => False
  end.

(** [webdriver.Chrome(...)] raises. *)
Definition chrome_does_not_start : call -> option exn :=
  fun c => match c with
           | NewChrome _ _ =>
               Some (mk_exn WebDriverException
                       ("Message: unable to obtain driver for chrome" +++ Str.nl))
           | _ => None
           end.

(** The wait for the selector raises something else than a timeout. *)
Definition selector_is_invalid : call -> option exn :=
  fun c => match c with
           | WaitPresence _ _ =>
               Some (mk_exn WebDriverException
                       ("Message: invalid selector" +++ Str.nl))
           | _ => None
           end.

(** A page with two items, both without visible text. *)
Definition two_blank_items : Page :=
  {| select := fun s => if String.eqb s "li" then [1; 2]%nat else [];
     text := fun e => match e with 0%nat => "body text" | _ => "" end;
     outer_html := fun _ => "<li></li>";
     body := Some 0%nat;
     page_source := "<html><body><li></li><li></li></body></html>" |}.

(** A browser with the variables of [vars] in its environment. *)
Definition with_environ (vars : string -> option string) (b : Browser) : Browser :=
  {| environ := vars;
     answer_unit := answer_unit b;
     answer_str := answer_str b;
     answer_elems := answer_elems b;
     answer_elem := answer_elem b |}.





(** * Properties *)

(** ** Running the monad *)

Lemma run_bind A B (m : M A) (k : A -> M B) st :
  bind m k st =
  match m st with
  | (Ok a, st') => k a st'
  | (Raise e, st') => (Raise e, st')
  end.
Proof. reflexivity. Qed.

Lemma run_invoke A b (answer : Browser -> list call -> res A) c st :
  invoke b answer c st =
  (answer b (history st ++ [c]),
   logged st [mk_event c (raised (answer b (history st ++ [c])))]).
Proof. reflexivity. Qed.

Lemma logged_nil st : log (logged st []) = log st.
Proof. simpl. apply app_nil_r. Qed.

Lemma history_logged st evs :
  history (logged st evs) = history st ++ map ev_call evs.
Proof. unfold history. simpl. apply map_app. Qed.

(** ** Frame conditions *)

Section Frames.

Variable F : State -> State -> Prop.
Variable P : event -> Prop.
Hypothesis F_refl : forall st, F st st.
Hypothesis F_trans : forall s1 s2 s3, F s1 s2 -> F s2 s3 -> F s1 s3.
Hypothesis F_log : forall st ev, P ev -> F st (logged st [ev]).

Lemma frames_ret A (a : A) : frames F (ret a).
Proof. intro st. apply F_refl. Qed.

Lemma frames_lift A (r : res A) : frames F (lift r).
Proof. intro st. apply F_refl. Qed.

Lemma frames_get_driver : frames F get_driver.
Proof. intro st. apply F_refl. Qed.

Lemma frames_invoke A b (answer : Browser -> list call -> res A) c :
  (forall q, P (mk_event c q)) -> frames F (invoke b answer c).
Proof. intros H st. apply F_log, H. Qed.

Lemma frames_bind A B (m : M A) (k : A -> M B) :
  frames F m -> (forall a, frames F (k a)) -> frames F (bind m k).
Proof.
  intros Hm Hk st. rewrite run_bind. specialize (Hm st).
  destruct (m st) as [[a|e] st1]; simpl in Hm; [|exact Hm].
  eapply F_trans; [exact Hm | apply Hk].
Qed.

Lemma frames_try_except A B (m : M A) (handler : exn -> option (M B)) k :
  frames F m ->
  (forall e h, handler e = Some h -> frames F h) ->
  (forall a, frames F (k a)) ->
  frames F (try_except m handler k).
Proof.
  intros Hm Hh Hk st. unfold try_except. specialize (Hm st).
  destruct (m st) as [[a|e] st1]; simpl in Hm.
  - eapply F_trans; [exact Hm | apply Hk].
  - destruct (handler e) as [h|] eqn:Eh; [|exact Hm].
    eapply F_trans; [exact Hm | eapply Hh, Eh].
Qed.

Lemma frames_try_pass (m : M unit) catches :
  frames F m -> frames F (try_pass m catches).
Proof.
  intros Hm. apply frames_try_except; [exact Hm | |].
  - intros e h. destruct (catches e); [|discriminate].
    intros [= <-]. apply frames_ret.
  - intros []. apply frames_ret.
Qed.

Lemma frames_try_finally A (m : M A) (f : M unit) :
  frames F m -> frames F f -> frames F (try_finally m f).
Proof.
  intros Hm Hf st. unfold try_finally. specialize (Hm st).
  destruct (m st) as [r st1]; simpl in Hm. specialize (Hf st1).
  destruct (f st1) as [[u|e] st2]; simpl in *; eapply F_trans; eauto.
Qed.

Lemma frames_when_given o (f : string -> M unit) :
  (forall s, o = Some s -> Str.truthy s = true -> frames F (f s)) ->
  frames F (when_given o f).
Proof.
  intros H. unfold when_given. destruct o as [s|]; [|apply frames_ret].
  destruct (Str.truthy s) eqn:T; [auto | apply frames_ret].
Qed.

(** The parts of [fetch]. *)

Variable b : Browser.

Lemma build_driver_frames headless :
  (forall c q, start_call c -> P (mk_event c q)) ->
  frames F (build_driver b headless).
Proof.
  intros H. unfold build_driver.
  apply frames_bind; [apply frames_invoke; intro; apply H; exact I | intro].
  apply frames_bind; [|intro; apply frames_ret].
  apply frames_try_pass, frames_invoke. intro. apply H. exact I.
Qed.

Lemma open_page_frames url timeout wait_seconds selector screenshot_path :
  (forall c q, page_call url timeout wait_seconds selector screenshot_path c ->
               P (mk_event c q)) ->
  frames F (open_page b url timeout wait_seconds selector screenshot_path).
Proof.
  intros H. unfold open_page.
  apply frames_bind; [apply frames_invoke; intro; apply H; reflexivity | intro].
  apply frames_bind; [apply frames_invoke; intro; apply H; reflexivity | intro].
  apply frames_bind;
    [apply frames_try_pass, frames_invoke; intro; apply H; reflexivity | intro].
  apply frames_bind; [|intro; apply frames_bind; [|intro]].
  - destruct (PrimFloat.ltb 0 wait_seconds) eqn:W; [|apply frames_ret].
    apply frames_invoke. intro. apply H. simpl. auto.
  - apply frames_when_given. intros s -> T.
    apply frames_try_pass, frames_invoke. intro. apply H. simpl. auto.
  - apply frames_when_given. intros s -> T.
    apply frames_invoke. intro. apply H. simpl. auto.
Qed.

Section Reads.

Variable selector : option string.
Hypothesis P_read : forall c q, read_call selector c -> P (mk_event c q).

Lemma visible_texts_frames elems : frames F (visible_texts b elems).
Proof.
  induction elems as [|e rest IH]; simpl.
  - apply frames_ret.
  - apply frames_bind; [apply frames_invoke; intro; apply P_read; exact I|].
    intro t. destruct (Str.truthy t); [|exact IH].
    apply frames_bind; [apply frames_invoke; intro; apply P_read; exact I|].
    intro. apply frames_bind; [exact IH | intro; apply frames_ret].
Qed.

Lemma outer_htmls_frames elems : frames F (outer_htmls b elems).
Proof.
  induction elems as [|e rest IH]; simpl.
  - apply frames_ret.
  - apply frames_bind; [apply frames_invoke; intro; apply P_read; exact I|].
    intro. apply frames_bind; [exact IH | intro; apply frames_ret].
Qed.

Lemma whole_document_frames as_text : frames F (whole_document b as_text).
Proof.
  unfold whole_document. destruct as_text.
  - apply frames_try_except.
    + apply frames_bind; [|intro]; apply frames_invoke; intro; apply P_read;
        exact I.
    + intros e h [= <-]. apply frames_invoke. intro. apply P_read. exact I.
    + intro. apply frames_ret.
  - apply frames_invoke. intro. apply P_read. exact I.
Qed.

Lemma extract_content_frames as_text :
  frames F (extract_content b selector as_text).
Proof.
  pose proof (whole_document_frames as_text) as W.
  pose proof visible_texts_frames as V. pose proof outer_htmls_frames as O.
  unfold extract_content. destruct selector as [s|] eqn:S; [|exact W].
  destruct (Str.truthy s) eqn:T; [|exact W].
  apply frames_bind.
  { apply frames_invoke. intro. apply P_read. simpl. auto. }
  intros [|e rest]; [exact W|].
  destruct as_text.
  - apply frames_bind; [apply V | intro; apply frames_ret].
  - apply frames_bind; [apply O | intro; apply frames_ret].
Qed.

End Reads.

Lemma release_frames :
  (forall q, P (mk_event Quit q)) -> frames F (release b).
Proof.
  intros H. unfold release. apply frames_bind; [apply frames_get_driver|].
  intros [d|]; [|apply frames_ret].
  apply frames_try_pass, frames_invoke, H.
Qed.

(** [fetch] also assigns its local variable. *)
Hypothesis F_driver : forall d, frames F (set_driver d).

Lemma fetch_frames url timeout wait_seconds selector as_text screenshot_path :
  (forall c q, fetch_call url timeout wait_seconds selector screenshot_path c ->
               P (mk_event c q)) ->
  frames F (fetch b url timeout wait_seconds selector as_text screenshot_path).
Proof.
  intros H. unfold fetch, fetch_try, fetch_call in *.
  apply frames_bind; [apply F_driver | intro].
  apply frames_try_finally.
  - apply frames_bind; [apply build_driver_frames; auto | intro].
    apply frames_bind; [apply F_driver | intro].
    apply frames_bind; [apply open_page_frames; auto | intro].
    apply extract_content_frames; auto.
  - apply release_frames. intro. apply H. simpl. auto.
Qed.

End Frames.

(** *** Three frame conditions *)

Lemma logged_logged st evs1 evs2 :
  logged (logged st evs1) evs2 = logged st (evs1 ++ evs2).
Proof. unfold logged. simpl. now rewrite app_assoc. Qed.

Lemma logged_none st : logged st [] = st.
Proof. destruct st. unfold logged. simpl. now rewrite app_nil_r. Qed.

Lemma appends_refl P st : appends P st st.
Proof. exists []. now rewrite logged_none. Qed.

Lemma appends_trans P s1 s2 s3 :
  appends P s1 s2 -> appends P s2 s3 -> appends P s1 s3.
Proof.
  intros (e1 & -> & F1) (e2 & -> & F2). exists (e1 ++ e2).
  rewrite logged_logged. split; [reflexivity | apply Forall_app; auto].
Qed.

Lemma appends_log P st ev : P ev -> appends P st (logged st [ev]).
Proof. intros H. exists [ev]. auto. Qed.

Lemma extends_refl P st : extends P st st.
Proof. exists []. now rewrite app_nil_r. Qed.

Lemma extends_trans P s1 s2 s3 :
  extends P s1 s2 -> extends P s2 s3 -> extends P s1 s3.
Proof.
  intros (e1 & E1 & F1) (e2 & E2 & F2). exists (e1 ++ e2).
  rewrite E2, E1, app_assoc. split; [reflexivity | apply Forall_app; auto].
Qed.

Lemma extends_log P st ev : P ev -> extends P st (logged st [ev]).
Proof. intros H. exists [ev]. auto. Qed.

Lemma same_streams_refl st : same_streams st st.
Proof. split; reflexivity. Qed.

Lemma same_streams_trans s1 s2 s3 :
  same_streams s1 s2 -> same_streams s2 s3 -> same_streams s1 s3.
Proof. intros [A1 B1] [A2 B2]. split; congruence. Qed.

Lemma same_streams_log st ev : same_streams st (logged st [ev]).
Proof. split; reflexivity. Qed.

Create HintDb frame discriminated.
#[export] Hint Resolve appends_refl appends_trans appends_log
  extends_refl extends_trans extends_log
  same_streams_refl same_streams_trans same_streams_log : frame.

Lemma emits_weaken A (P Q : event -> Prop) (m : M A) :
  (forall ev, P ev -> Q ev) -> emits P m -> emits Q m.
Proof.
  intros H Hm st. destruct (Hm st) as (evs & E & F).
  exists evs. split; [exact E | eapply Forall_impl; eauto].
Qed.

Lemma emits_set_driver P d : emits P (set_driver d).
Proof. intro st. exists []. simpl. now rewrite app_nil_r. Qed.

Lemma emits_print_out P s : emits P (print_out s).
Proof. intro st. exists []. simpl. now rewrite app_nil_r. Qed.

Lemma emits_print_err P s : emits P (print_err s).
Proof. intro st. exists []. simpl. now rewrite app_nil_r. Qed.

Lemma emits_ret A P (a : A) : emits P (ret a).
Proof. apply frames_ret, extends_refl. Qed.

Lemma emits_bind A B P (m : M A) (k : A -> M B) :
  emits P m -> (forall a, emits P (k a)) -> emits P (bind m k).
Proof. apply frames_bind, extends_trans. Qed.

Lemma emits_try_except A B P (m : M A) (handler : exn -> option (M B)) k :
  emits P m ->
  (forall e h, handler e = Some h -> emits P h) ->
  (forall a, emits P (k a)) ->
  emits P (try_except m handler k).
Proof. apply frames_try_except, extends_trans. Qed.

Lemma emits_when_given P o (f : string -> M unit) :
  (forall s, o = Some s -> Str.truthy s = true -> emits P (f s)) ->
  emits P (when_given o f).
Proof. apply frames_when_given, extends_refl. Qed.

Ltac emits_step :=
  first
    [ apply emits_bind; [|intro]
    | apply emits_ret
    | apply emits_print_out
    | apply emits_print_err ].

(** The calls of a fetch are those of [fetch_call]. *)
Lemma fetch_emits b url timeout wait_seconds selector as_text screenshot_path :
  emits (fun ev => fetch_call url timeout wait_seconds selector screenshot_path
                     (ev_call ev))
        (fetch b url timeout wait_seconds selector as_text screenshot_path).
Proof.
  apply fetch_frames with (P := fun ev =>
    fetch_call url timeout wait_seconds selector screenshot_path (ev_call ev));
    eauto with frame.
  intros d. apply emits_set_driver.
Qed.

(** A fetch prints nothing. *)
Lemma fetch_quiet b url timeout wait_seconds selector as_text screenshot_path :
  frames same_streams
    (fetch b url timeout wait_seconds selector as_text screenshot_path).
Proof.
  apply fetch_frames with (P := fun _ => True); eauto with frame.
  intros d st. split; reflexivity.
Qed.

(** ** Validation of the URL *)

Lemma lstrip_all_space s : Str.all_space s = true -> Str.lstrip s = "".
Proof.
  induction s as [|c s IH]; simpl; [reflexivity|].
  destruct (Str.isspace c); simpl; [exact IH | discriminate].
Qed.

Lemma strip_all_space s : Str.all_space s = true -> Str.strip s = "".
Proof. intros H. unfold Str.strip. now rewrite lstrip_all_space. Qed.

Lemma truthy_false s : Str.truthy s = false <-> s = "".
Proof. destruct s; simpl; split; congruence. Qed.

(** What [validate_url] returns, case by case. *)
Lemma validate_url_cases url :
  validate_url url =
  if negb (Str.truthy (Str.strip url)) then Raise empty_url
  else if Str.startswith (Str.strip url) "http://"
          || Str.startswith (Str.strip url) "https://"
       then Ok (Str.strip url)
       else Raise bad_scheme.
Proof.
  unfold validate_url. cbv zeta.
  destruct (Str.truthy (Str.strip url)); simpl; [|reflexivity].
  destruct (Str.startswith (Str.strip url) "http://"
            || Str.startswith (Str.strip url) "https://"); reflexivity.
Qed.

Lemma validate_url_ok url u :
  validate_url url = Ok u ->
  u = Str.strip url /\ Str.truthy u = true /\
  (Str.startswith u "http://" = true \/ Str.startswith u "https://" = true).
Proof.
  rewrite validate_url_cases.
  destruct (Str.truthy (Str.strip url)) eqn:T; simpl; [|discriminate].
  destruct (Str.startswith (Str.strip url) "http://"
            || Str.startswith (Str.strip url) "https://") eqn:P;
    [|discriminate].
  intros [= <-]. apply orb_true_iff in P. auto.
Qed.

(** [main] on an input that [validate_url] rejects: one line on the
    standard error stream, the value 2, and nothing else. *)
Lemma main_rejects b args st e :
  validate_url (arg_url args) = Raise e ->
  main b args st =
  (Ok 2%Z, {| log := log st; driver := driver st; stdout := stdout st;
              stderr := stderr st +++ ("error: " +++ str_of e) +++ Str.nl |}).
Proof.
  intros H. unfold main, try_except, lift. rewrite H.
  assert (V : is_ValueError e = true).
  { rewrite validate_url_cases in H.
    destruct (negb _); [injection H as <-; reflexivity|].
    destruct (_ || _); [discriminate | injection H as <-; reflexivity]. }
  rewrite V. reflexivity.
Qed.

(** [main] on an input that [validate_url] accepts continues with [fetch]
    on the stripped string. *)
Lemma main_accepts b args st u :
  validate_url (arg_url args) = Ok u ->
  exists k h,
    main b args st =
    try_except
      (fetch b u (arg_timeout args) (arg_wait args) (arg_selector args)
             (arg_text args) (arg_screenshot args)) h k st
    /\ (forall e m, h e = Some m -> emits (fun _ => False) m)
    /\ (forall s, emits (fun _ => False) (k s)).
Proof.
  intros H. unfold main at 1. unfold try_except at 1, lift. rewrite H.
  eexists. eexists. split; [reflexivity|]. split.
  - intros e m. destruct (is_WebDriverException e); simpl; intros [= <-];
      repeat emits_step.
  - intro s. repeat emits_step.
    + destruct (arg_selector args) as [x|]; [destruct (Str.truthy x)|];
        repeat emits_step.
    + apply emits_when_given. intros. repeat emits_step.
Qed.

(** The calls of [main] are those of a [fetch] of the stripped URL. *)
Lemma main_emits b args :
  emits (fun ev => fetch_call (Str.strip (arg_url args)) (arg_timeout args)
                     (arg_wait args) (arg_selector args) (arg_screenshot args)
                     (ev_call ev))
        (main b args).
Proof.
  intro st. destruct (validate_url (arg_url args)) as [u|e] eqn:V.
  - destruct (main_accepts b args st V) as (k & h & -> & Hh & Hk).
    apply validate_url_ok in V as (-> & _).
    revert st. apply emits_try_except.
    + apply fetch_emits.
    + intros e m Hm. eapply emits_weaken; [|eapply Hh; eauto]. intros ? [].
    + intros s. eapply emits_weaken; [|apply Hk]. intros ? [].
  - rewrite (main_rejects b args st V). exists []. simpl.
    rewrite app_nil_r. auto.
Qed.

(** C9. [validate_url] strips leading and trailing whitespace and then
    compares the prefix case-sensitively: an accepted input yields its
    stripped form, which is what [main] navigates to; an input of
    whitespace only is rejected as empty; [HTTP://example.com] is
    rejected; the bare [http://] is accepted. *)
Theorem validate_url_strips_then_checks_prefix :
  (forall url,
     validate_url url =
     if negb (Str.truthy (Str.strip url)) then Raise empty_url
     else if Str.startswith (Str.strip url) "http://"
             || Str.startswith (Str.strip url) "https://"
          then Ok (Str.strip url)
          else Raise bad_scheme) /\
  (forall b args st, exists evs,
     log (snd (main b args st)) = log st ++ evs /\
     Forall (fun ev => match ev_call ev with
                       | Get u => u = Str.strip (arg_url args)
                       | _ => True
                       end) evs) /\
  (forall url, Str.all_space url = true -> validate_url url = Raise empty_url) /\
  validate_url "HTTP://example.com" = Raise bad_scheme /\
  validate_url "http://" = Ok "http://" /\
  validate_url "  http://example.com/a b  " = Ok "http://example.com/a b".
Proof.
  split; [exact validate_url_cases|].
  split.
  { intros b args st. destruct (main_emits b args st) as (evs & E & F).
    exists evs. split; [exact E|].
    eapply Forall_impl; [|exact F]. intros ev. unfold fetch_call.
    destruct (ev_call ev); simpl; tauto. }
  split.
  { intros url H. rewrite validate_url_cases, strip_all_space by exact H.
    reflexivity. }
  repeat split; reflexivity.
Qed.

Lemma validate_url_strips_then_checks_prefix_witness :
  validate_url (String (ascii_of_nat 9) " ") = Raise empty_url.
Proof.
  apply (proj1 (proj2 (proj2 validate_url_strips_then_checks_prefix))).
  reflexivity.
Defined.

(** ** Deadlines *)

Lemma fetch_deadlines b url timeout wait_seconds selector as_text
    screenshot_path st :
  exists evs,
    log (snd (fetch b url timeout wait_seconds selector as_text
                    screenshot_path st)) = log st ++ evs /\
    Forall (fun ev => forall t, deadline_of (ev_call ev) = Some t -> t = timeout)
           evs.
Proof.
  destruct (fetch_emits b url timeout wait_seconds selector as_text
              screenshot_path st) as (evs & E & F).
  exists evs. split; [exact E|].
  eapply Forall_impl; [|exact F]. intros ev. unfold fetch_call.
  destruct (ev_call ev); simpl; intros H d; try discriminate; intros [= <-];
    tauto.
Qed.

(** C4, as stated, fails: no arguments give navigation 20 seconds, the
    wait for the document 5 and the wait for the selector 10. *)
Lemma deadlines_not_set_separately : ~ deadlines_set_separately 20 5 10.
Proof.
  intros (b & url & timeout & w & s & as_text & path & H1 & H2 & _).
  destruct (fetch_deadlines b url timeout w (Some s) as_text path initial)
    as (evs & E & F).
  unfold history in H1, H2. rewrite E in H1, H2. simpl in H1, H2.
  rewrite Forall_forall in F.
  apply in_map_iff in H1 as (ev1 & C1 & I1).
  apply in_map_iff in H2 as (ev2 & C2 & I2).
  assert (T1 : 20%Z = timeout) by (apply (F ev1 I1); rewrite C1; reflexivity).
  assert (T2 : 5%Z = timeout) by (apply (F ev2 I2); rewrite C2; reflexivity).
  congruence.
Qed.

(** C4, amended.  Navigation, the wait for the document and the wait for
    the selector all take their deadline from the one [timeout] argument
    (for the command line, the one [--timeout] option): each gets the
    whole of it, none can be set apart from the others. *)
Theorem one_timeout_for_navigation_and_waits :
  (forall b url timeout wait_seconds selector as_text screenshot_path st,
     exists evs,
       log (snd (fetch b url timeout wait_seconds selector as_text
                       screenshot_path st)) = log st ++ evs /\
       Forall (fun ev => match ev_call ev with
                         | SetPageLoadTimeout t => t = timeout
                         | WaitReady t => t = timeout
                         | WaitPresence t _ => t = timeout
                         | _ => True
                         end) evs) /\
  (forall b args st,
     exists evs,
       log (snd (main b args st)) = log st ++ evs /\
       Forall (fun ev => match ev_call ev with
                         | SetPageLoadTimeout t => t = arg_timeout args
                         | WaitReady t => t = arg_timeout args
                         | WaitPresence t _ => t = arg_timeout args
                         | _ => True
                         end) evs).
Proof.
  split.
  - intros. destruct (fetch_emits b url timeout wait_seconds selector as_text
                        screenshot_path st) as (evs & E & F).
    exists evs. split; [exact E|].
    eapply Forall_impl; [|exact F]. intros ev. unfold fetch_call.
    destruct (ev_call ev); simpl; tauto.
  - intros. destruct (main_emits b args st) as (evs & E & F).
    exists evs. split; [exact E|].
    eapply Forall_impl; [|exact F]. intros ev. unfold fetch_call.
    destruct (ev_call ev); simpl; tauto.
Qed.

(** ** The run of a fetch, part by part *)

Lemma build_driver_appends b headless st :
  appends is_start st (snd (build_driver b headless st)).
Proof.
  apply build_driver_frames with (P := is_start); eauto with frame.
Qed.

Lemma open_page_appends b url timeout wait_seconds selector screenshot_path st :
  appends (is_page url timeout wait_seconds selector screenshot_path) st
    (snd (open_page b url timeout wait_seconds selector screenshot_path st)).
Proof.
  apply open_page_frames
    with (P := is_page url timeout wait_seconds selector screenshot_path);
    eauto with frame.
Qed.

Lemma extract_content_appends b selector as_text st :
  appends (is_read selector) st (snd (extract_content b selector as_text st)).
Proof.
  apply extract_content_frames with (P := is_read selector) (selector := selector);
    eauto with frame.
Qed.

(** The [finally] clause never raises: it quits the driver when there is
    one and swallows what [quit] raises. *)
Lemma release_run b st :
  release b st =
  (Ok tt, match driver st with Some _ => quit_quietly b st | None => st end).
Proof.
  unfold release, get_driver. rewrite run_bind.
  destruct (driver st) as [d|]; [|reflexivity].
  unfold try_pass, try_except. rewrite run_invoke. unfold quit_quietly.
  destruct (answer_unit b (history st ++ [Quit])) as [[]|e]; reflexivity.
Qed.

(** [try: body / finally: release] has the outcome of [body]. *)
Lemma try_finally_release A b (body : M A) st :
  try_finally body (release b) st =
  (fst (body st),
   match driver (snd (body st)) with
   | Some _ => quit_quietly b (snd (body st))
   | None => snd (body st)
   end).
Proof.
  unfold try_finally. destruct (body st) as [r st1]. rewrite release_run.
  reflexivity.
Qed.

Lemma driver_logged st evs : driver (logged st evs) = driver st.
Proof. reflexivity. Qed.

Lemma run_set_driver A d (k : unit -> M A) st :
  bind (set_driver d) k st = k tt (with_driver d st).
Proof. reflexivity. Qed.

(** Every run of [fetch], by the runs of its parts. *)
Lemma fetch_run b url timeout wait_seconds selector as_text screenshot_path st :
  fetch b url timeout wait_seconds selector as_text screenshot_path st =
  match build_driver b true (with_driver None st) with
  | (Raise e, st1) => (Raise e, st1)
  | (Ok d, st1) =>
      match open_page b url timeout wait_seconds selector screenshot_path
                      (with_driver (Some d) st1) with
      | (Raise e, st2) => (Raise e, quit_quietly b st2)
      | (Ok _, st2) =>
          (fst (extract_content b selector as_text st2),
           quit_quietly b (snd (extract_content b selector as_text st2)))
      end
  end.
Proof.
  unfold fetch. rewrite run_set_driver, try_finally_release.
  unfold fetch_try. rewrite run_bind.
  destruct (build_driver_appends b true (with_driver None st)) as (e1 & E1 & _).
  destruct (build_driver b true (with_driver None st)) as [[d|e] st1];
    simpl in E1; subst st1; [|reflexivity].
  rewrite run_set_driver.
  set (st1 := with_driver (Some d) (logged (with_driver None st) e1)).
  rewrite run_bind.
  destruct (open_page_appends b url timeout wait_seconds selector
              screenshot_path st1) as (e2 & E2 & _).
  destruct (open_page b url timeout wait_seconds selector screenshot_path st1)
    as [[[]|e] st2]; simpl in E2; subst st2; [|reflexivity].
  destruct (extract_content_appends b selector as_text (logged st1 e2))
    as (e3 & E3 & _).
  destruct (extract_content b selector as_text (logged st1 e2)) as [r st3];
    simpl in E3; subst st3. reflexivity.
Qed.

(** The first two calls of every fetch. *)
Lemma build_driver_run b headless st :
  build_driver b headless st =
  match answer_unit b (history st ++ [new_chrome b headless]) with
  | Raise e => (Raise e, logged st [mk_event (new_chrome b headless) (Some e)])
  | Ok _ =>
      (Ok Chrome,
       logged st
         [ mk_event (new_chrome b headless) None;
           mk_event hide_webdriver
             (raised (answer_unit b
                        (history st ++ [new_chrome b headless; hide_webdriver]))) ])
  end.
Proof.
  unfold build_driver. rewrite run_bind, run_invoke.
  destruct (answer_unit b (history st ++ [new_chrome b headless])) as [[]|e];
    [|reflexivity].
  rewrite run_bind. unfold try_pass, try_except. rewrite run_invoke.
  rewrite history_logged. simpl (map ev_call _). rewrite <- app_assoc.
  simpl ([_] ++ [_]).
  destruct (answer_unit b _) as [[]|e]; simpl; rewrite logged_logged;
    reflexivity.
Qed.

(** ** The stages before the content is read *)

Ltac answer_cases b :=
  repeat match goal with
         | |- context [answer_unit b ?h] =>
             destruct (answer_unit b h) as [[]|?]; simpl
         | |- context [is_TimeoutException ?e] =>
             destruct (is_TimeoutException e); simpl
         end.

(** [open_page] runs its stages. *)
Lemma open_page_stages b url timeout wait_seconds selector screenshot_path st :
  open_page b url timeout wait_seconds selector screenshot_path st =
  run_stages b (page_stages url timeout wait_seconds selector screenshot_path) st.
Proof.
  unfold open_page, page_stages, wait_stages, screenshot_stage, when_given.
  destruct (PrimFloat.ltb 0 wait_seconds);
    destruct selector as [s|]; [destruct (Str.truthy s)| |destruct (Str.truthy s)|];
    (destruct screenshot_path as [p|]; [destruct (Str.truthy p)|]);
    simpl; unfold bind, try_pass, try_except, invoke, ret, fatal; simpl;
    answer_cases b; reflexivity.
Qed.

Lemma stages_outcome_cons sg p ev evs r :
  passed ev sg -> stages_outcome p evs r -> stages_outcome (sg :: p) (ev :: evs) r.
Proof.
  intros Hp [Hall | p1 sg' p2 evs1 e -> -> H1 H2].
  - apply all_passed. constructor; assumption.
  - apply one_failed with (p1 := sg :: p1) (sg := sg') (p2 := p2)
                          (evs1 := ev :: evs1); auto.
Qed.

Lemma run_stages_spec b p st :
  exists evs,
    snd (run_stages b p st) = logged st evs /\
    stages_outcome p evs (fst (run_stages b p st)).
Proof.
  revert st. induction p as [|[c swallowed] rest IH]; intro st.
  - exists []. simpl. rewrite logged_none. split; [reflexivity|].
    apply all_passed. constructor.
  - simpl. rewrite run_bind. unfold try_pass, try_except. rewrite run_invoke.
    destruct (answer_unit b (history st ++ [c])) as [[]|e] eqn:Ans.
    + simpl. destruct (IH (logged st [mk_event c None])) as (evs & E & O).
      exists (mk_event c None :: evs). rewrite E, logged_logged.
      split; [reflexivity|]. apply stages_outcome_cons; [|exact O].
      split; simpl; auto.
    + simpl. destruct (swallowed e) eqn:Sw.
      * simpl. destruct (IH (logged st [mk_event c (Some e)])) as (evs & E & O).
        exists (mk_event c (Some e) :: evs). rewrite E, logged_logged.
        split; [reflexivity|]. apply stages_outcome_cons; [|exact O].
        split; simpl; auto.
      * exists [mk_event c (Some e)]. split; [reflexivity|].
        apply one_failed with (p1 := []) (sg := (c, swallowed)) (p2 := rest)
                                (evs1 := []); auto.
Qed.

(** The events of [open_page]. *)
Lemma open_page_spec b url timeout wait_seconds selector screenshot_path st :
  exists evs,
    snd (open_page b url timeout wait_seconds selector screenshot_path st)
    = logged st evs /\
    stages_outcome
      (page_stages url timeout wait_seconds selector screenshot_path) evs
      (fst (open_page b url timeout wait_seconds selector screenshot_path st)).
Proof. rewrite open_page_stages. apply run_stages_spec. Qed.

(** ** The content of a page that stands still *)

Section Shown.

Variable b : Browser.
Variable p : Page.
Hypothesis Shown : shows b p.

Lemma visible_texts_shown elems st :
  fst (visible_texts b elems st)
  = Ok (filter Str.truthy (map (text p) elems)).
Proof.
  destruct Shown as (_ & Htext & _).
  revert st. induction elems as [|e rest IH]; intro st; [reflexivity|].
  simpl. rewrite run_bind, run_invoke, Htext.
  destruct (Str.truthy (text p e)); [|apply IH].
  rewrite run_bind, run_invoke, Htext, run_bind.
  specialize (IH (logged (logged st [mk_event (GetText e) (raised (Ok (text p e)))])
                         [mk_event (GetText e) (raised (Ok (text p e)))])).
  destruct (visible_texts b rest _) as [[vs|x] st']; simpl in IH; [|discriminate].
  injection IH as ->. reflexivity.
Qed.

Lemma outer_htmls_shown elems st :
  fst (outer_htmls b elems st) = Ok (map (outer_html p) elems).
Proof.
  destruct Shown as (_ & _ & Hhtml & _).
  revert st. induction elems as [|e rest IH]; intro st; [reflexivity|].
  simpl. rewrite run_bind, run_invoke, Hhtml, run_bind.
  specialize (IH (logged st [mk_event (OuterHTML e) (raised (Ok (outer_html p e)))])).
  destruct (outer_htmls b rest _) as [[vs|x] st']; simpl in IH; [|discriminate].
  injection IH as ->. reflexivity.
Qed.

Lemma whole_document_shown as_text st :
  fst (whole_document b as_text st) = Ok (document_content p as_text).
Proof.
  destruct Shown as (_ & Htext & _ & Hbody & Hsource).
  unfold whole_document, document_content. destruct as_text.
  - unfold try_except. rewrite run_bind, run_invoke.
    specialize (Hbody (history st)).
    destruct (body p) as [e|].
    + rewrite Hbody. cbn beta iota. rewrite run_invoke, Htext. reflexivity.
    + destruct Hbody as (x & ->). unfold Exception. cbn beta iota.
      rewrite run_invoke, Hsource.
      reflexivity.
  - rewrite run_invoke, Hsource. reflexivity.
Qed.

Lemma extract_content_shown selector as_text st :
  fst (extract_content b selector as_text st)
  = Ok (page_content p selector as_text).
Proof.
  unfold extract_content, page_content.
  destruct selector as [s|]; [|apply whole_document_shown].
  destruct (Str.truthy s); [|apply whole_document_shown].
  rewrite run_bind, run_invoke.
  destruct Shown as (Hsel & _). rewrite Hsel.
  destruct (select p s) as [|e rest] eqn:Sel; [apply whole_document_shown|].
  unfold selected_content. destruct as_text; rewrite run_bind.
  - match goal with
    | |- context [visible_texts b ?l ?s] =>
        pose proof (visible_texts_shown l s) as V;
        destruct (visible_texts b l s) as [[vs|x] st']
    end; simpl in V; [|discriminate].
    injection V as ->. reflexivity.
  - match goal with
    | |- context [outer_htmls b ?l ?s] =>
        pose proof (outer_htmls_shown l s) as V;
        destruct (outer_htmls b l s) as [[vs|x] st']
    end; simpl in V; [|discriminate].
    injection V as ->. reflexivity.
Qed.

(** A fetch that returns, returns the content of the page. *)
Lemma fetch_returns_page_content url timeout wait_seconds selector as_text
    screenshot_path st content :
  fst (fetch b url timeout wait_seconds selector as_text screenshot_path st)
  = Ok content ->
  content = page_content p selector as_text.
Proof.
  rewrite fetch_run.
  destruct (build_driver b true _) as [[d|e] st1]; [|discriminate].
  destruct (open_page b _ _ _ _ _ _) as [[[]|e] st2]; [|discriminate].
  simpl. rewrite extract_content_shown. congruence.
Qed.

End Shown.

(** [serve p faults] shows [p] when no read is made to fail. *)
Lemma serve_shows p faults :
  (forall c, read_call None c \/ (exists s, c = FindElements s) ->
             faults c = None) ->
  shows (serve p faults) p.
Proof.
  intros H. unfold shows, serve. simpl.
  repeat split; intros; rewrite ?last_last.
  - rewrite H; [reflexivity | right; eauto].
  - rewrite H; [reflexivity | left; exact I].
  - rewrite H; [reflexivity | left; exact I].
  - rewrite H by (left; exact I).
    destruct (body p); [reflexivity | eauto].
  - rewrite H; [reflexivity | left; exact I].
Qed.

(** ** Extraction *)

Lemma serve_no_faults_shows p : shows (serve p no_faults) p.
Proof. apply serve_shows. reflexivity. Qed.

(** With a selector that matches nothing, lines 145-147 fall through to
    the whole page. *)
Lemma extract_content_no_match b s as_text st :
  Str.truthy s = true ->
  answer_elems b (history st ++ [FindElements s]) = Ok [] ->
  extract_content b (Some s) as_text st
  = whole_document b as_text (logged st [mk_event (FindElements s) None]).
Proof.
  intros T H. unfold extract_content. rewrite T, run_bind, run_invoke, H.
  reflexivity.
Qed.

(** C6. When the selector matches no element, the content is that of the
    whole document in the same mode: the run goes on as the run without
    a selector does, and on one and the same page both give the same
    string, also as the result of [fetch]. *)
Theorem selector_without_match_gives_whole_document :
  (forall b s as_text st,
     Str.truthy s = true ->
     answer_elems b (history st ++ [FindElements s]) = Ok [] ->
     extract_content b (Some s) as_text st
     = whole_document b as_text (logged st [mk_event (FindElements s) None])) /\
  (forall b p s as_text st st',
     shows b p ->
     select p s = [] ->
     fst (extract_content b (Some s) as_text st)
     = fst (extract_content b None as_text st') /\
     fst (extract_content b (Some s) as_text st)
     = Ok (document_content p as_text)) /\
  (forall b p url timeout wait_seconds s as_text screenshot_path st content,
     shows b p ->
     select p s = [] ->
     fst (fetch b url timeout wait_seconds (Some s) as_text screenshot_path st)
     = Ok content ->
     content = document_content p as_text).
Proof.
  split; [exact extract_content_no_match|]. split.
  - intros b p s as_text st st' Sh Sel.
    rewrite !(extract_content_shown Sh). unfold page_content. rewrite Sel.
    destruct (Str.truthy s); auto.
  - intros b p url timeout w s as_text path st content Sh Sel H.
    apply (fetch_returns_page_content Sh) in H. subst content.
    unfold page_content. rewrite Sel. destruct (Str.truthy s); reflexivity.
Qed.

Lemma selector_without_match_gives_whole_document_witness :
  fst (extract_content (serve two_paragraphs no_faults) (Some "div") true initial)
  = fst (extract_content (serve two_paragraphs no_faults) None true initial) /\
  fst (extract_content (serve two_paragraphs no_faults) (Some "div") true initial)
  = Ok "A B".
Proof.
  apply (proj1 (proj2 selector_without_match_gives_whole_document)
           (serve two_paragraphs no_faults) two_paragraphs "div" true
           initial initial).
  - apply serve_no_faults_shows.
  - reflexivity.
Defined.

(** C5. When the selector matches elements of the page, the content is,
    in markup mode, the serialized markup of each matched element, in
    document order, joined by a blank line; in text mode, the visible
    texts joined the same way, the empty ones left out.  The same holds
    of the result of [fetch].  Two paragraphs [<p>A</p>] and [<p>B</p>]
    give the first, a blank line, the second; an item without text and an
    item [Hello] give [Hello] and nothing else. *)
Theorem matched_elements_joined_by_blank_line :
  (forall b p s as_text st,
     shows b p ->
     Str.truthy s = true ->
     select p s <> [] ->
     fst (extract_content b (Some s) as_text st)
     = Ok (if as_text
           then Str.join blank_line (filter Str.truthy (map (text p) (select p s)))
           else Str.join blank_line (map (outer_html p) (select p s)))) /\
  (forall b p url timeout wait_seconds s as_text screenshot_path st content,
     shows b p ->
     Str.truthy s = true ->
     select p s <> [] ->
     fst (fetch b url timeout wait_seconds (Some s) as_text screenshot_path st)
     = Ok content ->
     content
     = if as_text
       then Str.join blank_line (filter Str.truthy (map (text p) (select p s)))
       else Str.join blank_line (map (outer_html p) (select p s))) /\
  fst (fetch (serve two_paragraphs no_faults) "http://example.com" 20 0%float
             (Some "p") false None initial)
  = Ok ("<p>A</p>" +++ Str.nl +++ Str.nl +++ "<p>B</p>") /\
  fst (fetch (serve blank_then_hello no_faults) "http://example.com" 20 0%float
             (Some "li") true None initial)
  = Ok "Hello".
Proof.
  assert (C : forall p s as_text,
             Str.truthy s = true -> select p s <> [] ->
             page_content p (Some s) as_text
             = selected_content p (select p s) as_text).
  { intros p s as_text T N. unfold page_content. rewrite T.
    destruct (select p s); congruence. }
  split; [|split].
  - intros b p s as_text st Sh T N.
    rewrite (extract_content_shown Sh), C by assumption. reflexivity.
  - intros b p url timeout w s as_text path st content Sh T N H.
    apply (fetch_returns_page_content Sh) in H. subst content.
    rewrite C by assumption. reflexivity.
  - split; vm_compute; reflexivity.
Qed.

Lemma matched_elements_joined_by_blank_line_witness :
  fst (extract_content (serve two_paragraphs no_faults) (Some "p") true initial)
  = Ok ("A" +++ Str.nl +++ Str.nl +++ "B").
Proof.
  apply (proj1 matched_elements_joined_by_blank_line
           (serve two_paragraphs no_faults) two_paragraphs "p" true initial).
  - apply serve_no_faults_shows.
  - reflexivity.
  - discriminate.
Defined.

(** ** The events of a fetch *)


Lemma grows_refl st : grows st st.
Proof. unfold grows. lia. Qed.

Lemma grows_trans s1 s2 s3 : grows s1 s2 -> grows s2 s3 -> grows s1 s3.
Proof. unfold grows. lia. Qed.

Lemma grows_log st ev : grows st (logged st [ev]).
Proof. unfold grows. simpl. rewrite length_app. lia. Qed.

#[export] Hint Resolve grows_refl grows_trans grows_log : frame.

Lemma calls_invoke A b (answer : Browser -> list call -> res A) c :
  calls (invoke b answer c).
Proof. intro st. simpl. rewrite length_app. simpl. lia. Qed.

Lemma calls_bind A B (m : M A) (k : A -> M B) :
  calls m -> (forall a, frames grows (k a)) -> calls (bind m k).
Proof.
  intros Hm Hk st. rewrite run_bind. specialize (Hm st).
  destruct (m st) as [[a|e] st1]; simpl in *; [|exact Hm].
  specialize (Hk a st1). unfold grows in Hk. lia.
Qed.

Lemma calls_try_except A B (m : M A) (handler : exn -> option (M B)) k :
  calls m ->
  (forall e h, handler e = Some h -> frames grows h) ->
  (forall a, frames grows (k a)) ->
  calls (try_except m handler k).
Proof.
  intros Hm Hh Hk st. unfold try_except. specialize (Hm st).
  destruct (m st) as [[a|e] st1]; simpl in *.
  - specialize (Hk a st1). unfold grows in Hk. lia.
  - destruct (handler e) as [h|] eqn:Eh; [|exact Hm].
    specialize (Hh e h Eh st1). unfold grows in Hh. lia.
Qed.

Lemma whole_document_calls b as_text : calls (whole_document b as_text).
Proof.
  unfold whole_document. destruct as_text; [|apply calls_invoke].
  apply calls_try_except.
  - apply calls_bind; [apply calls_invoke|].
    intro. apply frames_invoke with (P := fun _ => True); auto with frame.
  - intros e h [= <-].
    apply frames_invoke with (P := fun _ => True); auto with frame.
  - intro. apply frames_ret. auto with frame.
Qed.

(** Reading the content makes at least one call. *)
Lemma extract_content_calls b selector as_text st :
  exists ev evs,
    snd (extract_content b selector as_text st) = logged st (ev :: evs) /\
    Forall (is_read selector) (ev :: evs).
Proof.
  destruct (extract_content_appends b selector as_text st) as (evs & E & F).
  destruct evs as [|ev evs]; [exfalso | eauto].
  assert (C : calls (extract_content b selector as_text)).
  { unfold extract_content.
    destruct selector as [s|]; [|apply whole_document_calls].
    destruct (Str.truthy s); [|apply whole_document_calls].
    apply calls_bind; [apply calls_invoke|].
    intros [|e rest].
    - apply whole_document_frames with (P := fun _ => True) (selector := None);
        eauto with frame.
    - destruct as_text; (apply frames_bind; eauto with frame;
                         [|intro; apply frames_ret; auto with frame]).
      + apply visible_texts_frames with (P := fun _ => True) (selector := None);
          eauto with frame.
      + apply outer_htmls_frames with (P := fun _ => True) (selector := None);
          eauto with frame. }
  specialize (C st). rewrite E, logged_none in C. lia.
Qed.

Lemma fetch_spec b url timeout wait_seconds selector as_text screenshot_path st :
  exists evs,
    log (snd (fetch b url timeout wait_seconds selector as_text
                    screenshot_path st)) = log st ++ evs /\
    fetch_outcome b url timeout wait_seconds selector as_text screenshot_path
      evs
      (fst (fetch b url timeout wait_seconds selector as_text
                  screenshot_path st)).
Proof.
  rewrite fetch_run, build_driver_run.
  change (history (with_driver None st)) with (history st).
  destruct (answer_unit b (history st ++ [new_chrome b true])) as [[]|e].
  - match goal with
    | |- context [open_page _ _ _ _ _ _ ?s] => set (st1 := s)
    end.
    destruct (open_page_spec b url timeout wait_seconds selector
                screenshot_path st1) as (evs2 & E2 & O2).
    destruct (open_page b url timeout wait_seconds selector screenshot_path st1)
      as [[[]|e] st2]; simpl in E2, O2; subst st2.
    + destruct (extract_content_calls b selector as_text (logged st1 evs2))
        as (ev & evs3 & E3 & F3).
      eexists. split.
      * unfold quit_quietly. simpl snd. rewrite E3. simpl.
        rewrite <- !app_assoc. reflexivity.
      * simpl fst. apply content_read with (evs3 := ev :: evs3);
          [exact O2 | exact F3 | discriminate | eauto].
    + eexists. split.
      * unfold quit_quietly. simpl. rewrite <- !app_assoc. reflexivity.
      * apply stage_failed. exact O2.
  - eexists. split; [reflexivity|]. apply no_session.
Qed.

(** ** What the stages are *)

Lemma wait_stages_calls url timeout wait_seconds selector sg :
  In sg (wait_stages url timeout wait_seconds selector) ->
  page_call url timeout wait_seconds selector None (fst sg) /\
  (if snd sg (mk_exn TimeoutException "") then is_wait (fst sg)
   else ~ is_wait (fst sg)) /\
  (snd sg = fatal \/ snd sg = is_TimeoutException).
Proof.
  unfold wait_stages. rewrite !in_app_iff. simpl.
  intros [[<-|[<-|[<-|[]]]] | [H|H]]; simpl; auto.
  - destruct (PrimFloat.ltb 0 wait_seconds) eqn:W; [|destruct H].
    destruct H as [<-|[]]. simpl. auto.
  - destruct selector as [s|]; [|destruct H].
    destruct (Str.truthy s) eqn:T; [|destruct H].
    destruct H as [<-|[]]. simpl. auto.
Qed.

Lemma wait_stages_not_screenshot url timeout wait_seconds selector sg :
  In sg (wait_stages url timeout wait_seconds selector) ->
  ~ is_screenshot (fst sg) /\ fst sg <> Quit.
Proof.
  intros H. apply wait_stages_calls in H as (H & _).
  destruct (fst sg); simpl in *; intuition discriminate.
Qed.

Lemma screenshot_stage_cases screenshot_path :
  (screenshot_stage screenshot_path = [] /\
   Str.truthy_opt screenshot_path = false) \/
  (exists p, screenshot_path = Some p /\ Str.truthy p = true /\
             screenshot_stage screenshot_path = [(SaveScreenshot p, fatal)]).
Proof.
  unfold screenshot_stage. destruct screenshot_path as [p|]; simpl; auto.
  destruct (Str.truthy p) eqn:T; eauto.
Qed.

Lemma last_or_none A (l : list A) : l = [] \/ exists l' a, l = l' ++ [a].
Proof.
  destruct l as [|x l]; [left; reflexivity|].
  right. destruct (@exists_last _ (x :: l)) as (l' & a & E); [discriminate|].
  eauto.
Qed.

(** The events of stages that passed carry the calls of the stages. *)
Lemma passed_calls evs p :
  Forall2 passed evs p -> map ev_call evs = map fst p.
Proof.
  induction 1 as [|ev sg evs p [H _] _ IH]; simpl; congruence.
Qed.

Lemma passed_Forall (Q : call -> Prop) evs p :
  Forall2 passed evs p ->
  (forall sg, In sg p -> Q (fst sg)) ->
  Forall (fun ev => Q (ev_call ev)) evs.
Proof.
  induction 1 as [|ev sg evs p [H _] _ IH]; intros HQ; constructor.
  - rewrite H. apply HQ. left. reflexivity.
  - apply IH. intros. apply HQ. right. assumption.
Qed.

(** A stage that is fatal passes only when its call returns. *)
Lemma passed_fatal ev c : passed ev (c, fatal) -> ev = mk_event c None.
Proof.
  destruct ev as [c' [e|]]; intros [H1 H2]; simpl in *; subst.
  - discriminate.
  - reflexivity.
Qed.

(** The events of the stages of [open_page]: either there is no
    screenshot among them, or the screenshot is the last of them and
    comes after every stage of navigation and waiting. *)
Lemma page_stages_events url timeout wait_seconds selector screenshot_path evs r :
  stages_outcome
    (page_stages url timeout wait_seconds selector screenshot_path) evs r ->
  (Forall (fun ev => ~ is_screenshot (ev_call ev) /\ ev_call ev <> Quit) evs /\
   (r = Ok tt -> Str.truthy_opt screenshot_path = false))
  \/
  (exists evs1 p q,
     screenshot_path = Some p /\ Str.truthy p = true /\
     evs = evs1 ++ [mk_event (SaveScreenshot p) q] /\
     Forall2 passed evs1 (wait_stages url timeout wait_seconds selector) /\
     r = match q with None => Ok tt | Some e => Raise e end).
Proof.
  unfold page_stages.
  set (W := wait_stages url timeout wait_seconds selector).
  assert (HW : forall sg, In sg W ->
                 ~ is_screenshot (fst sg) /\ fst sg <> Quit)
    by (intros; eapply wait_stages_not_screenshot; eauto).
  intros [Hall | p1 sg p2 evs1 e Hp -> H1 Hsw].
  - apply Forall2_app_inv_r in Hall as (evsW & evsS & FW & FS & ->).
    destruct (screenshot_stage_cases screenshot_path)
      as [[ES T] | (p & -> & T & ES)]; rewrite ES in FS.
    + inversion FS; subst. left. rewrite app_nil_r. split; [|auto].
      apply passed_Forall with (Q := fun c => ~ is_screenshot c /\ c <> Quit) (p := W);
        assumption.
    + inversion FS as [|ev sg' l l' Hp Hnil]; subst.
      inversion Hnil; subst. apply passed_fatal in Hp. subst ev.
      right. exists evsW, p, None. auto.
  - destruct (screenshot_stage_cases screenshot_path)
      as [[ES T] | (p & -> & T & ES)]; rewrite ES in Hp.
    + rewrite app_nil_r in Hp. left. split; [|discriminate].
      apply Forall_app. split.
      * apply passed_Forall with (Q := fun c => ~ is_screenshot c /\ c <> Quit)
                                 (p := p1); [assumption|]. intros sg' I. apply HW. rewrite Hp.
        apply in_or_app. auto.
      * constructor; [|constructor]. simpl. apply HW. rewrite Hp.
        apply in_or_app. right. left. reflexivity.
    + destruct (last_or_none p2) as [-> | (p2' & s & ->)].
      * apply (app_inj_tail W p1) in Hp as [-> <-].
        right. exists evs1, p, (Some e). auto.
      * change (W ++ [(SaveScreenshot p, fatal)]
                = p1 ++ (sg :: p2') ++ [s]) in Hp.
        rewrite app_assoc in Hp. apply app_inj_tail in Hp as [Hp _].
        left. split; [|discriminate].
        apply Forall_app. split.
        -- apply passed_Forall with (Q := fun c => ~ is_screenshot c /\ c <> Quit)
                                 (p := p1); [assumption|]. intros sg' I. apply HW. rewrite Hp.
           apply in_or_app. auto.
        -- constructor; [|constructor]. simpl. apply HW. rewrite Hp.
           apply in_or_app. right. left. reflexivity.
Qed.

(** ** Release of the session *)

Lemma stages_outcome_page_not_quit url timeout wait_seconds selector
    screenshot_path evs r :
  stages_outcome
    (page_stages url timeout wait_seconds selector screenshot_path) evs r ->
  Forall (fun ev => ev_call ev <> Quit) evs.
Proof.
  intros H. apply page_stages_events in H
    as [[F _] | (evs1 & p & q & _ & _ & -> & F & _)].
  - eapply Forall_impl; [|exact F]. intros ev [_ H]. exact H.
  - apply Forall_app. split.
    + apply passed_Forall with (Q := fun c => c <> Quit)
                               (p := wait_stages url timeout wait_seconds selector);
        [assumption|].
      intros sg I. eapply wait_stages_not_screenshot; eauto.
    + constructor; [discriminate | constructor].
Qed.

Lemma reads_not_quit selector evs :
  Forall (is_read selector) evs -> Forall (fun ev => ev_call ev <> Quit) evs.
Proof.
  apply Forall_impl. intros ev. unfold is_read.
  destruct (ev_call ev); simpl; intros H; try discriminate; destruct H.
Qed.

(** C1. The outcome of [fetch] is the outcome of its [try] block, whatever
    [quit] does.  When the session was acquired, that is when
    [webdriver.Chrome(...)] returned, the last call of the fetch is
    [quit], made once, it being a call that returned or a call that raised;
    when it was not, no [quit] is made. *)
Theorem session_released_on_every_exit :
  forall b url timeout wait_seconds selector as_text screenshot_path st,
    fst (fetch b url timeout wait_seconds selector as_text screenshot_path st)
    = fst (fetch_try b url timeout wait_seconds selector as_text
                     screenshot_path (with_driver None st)) /\
    exists evs,
      log (snd (fetch b url timeout wait_seconds selector as_text
                      screenshot_path st)) = log st ++ evs /\
      (In (mk_event (new_chrome b true) None) evs ->
       exists before q,
         evs = before ++ [mk_event Quit q] /\
         Forall (fun ev => ev_call ev <> Quit) before) /\
      (~ In (mk_event (new_chrome b true) None) evs ->
       Forall (fun ev => ev_call ev <> Quit) evs).
Proof.
  intros. split.
  { unfold fetch. rewrite run_set_driver, try_finally_release. reflexivity. }
  destruct (fetch_spec b url timeout wait_seconds selector as_text
              screenshot_path st) as (evs & E & O).
  exists evs. split; [exact E|].
  destruct O as [e | q evs2 e q' O2 | q evs2 evs3 r q' O2 F3 N3 X3].
  - split.
    + intros [[=]|[]].
    + intros _. constructor; [discriminate | constructor].
  - split; [|intros N; exfalso; apply N; left; reflexivity].
    intros _. eexists. exists q'. rewrite app_assoc. split; [reflexivity|].
    apply Forall_app. split.
    + constructor; [discriminate|]. constructor; [discriminate | constructor].
    + eapply stages_outcome_page_not_quit, O2.
  - split; [|intros N; exfalso; apply N; left; reflexivity].
    intros _. eexists. exists q'. rewrite !app_assoc. split; [reflexivity|].
    rewrite <- app_assoc. apply Forall_app. split; [|apply Forall_app; split].
    + constructor; [discriminate|]. constructor; [discriminate | constructor].
    + eapply stages_outcome_page_not_quit, O2.
    + eapply reads_not_quit, F3.
Qed.

Lemma session_released_on_every_exit_witness :
  exists evs,
    log (snd (fetch (serve two_paragraphs quit_fails) "http://example.com" 20
                    0%float None false None initial)) = [] ++ evs /\
    exists before q,
      evs = before ++ [mk_event Quit q] /\
      Forall (fun ev => ev_call ev <> Quit) before.
Proof.
  destruct (proj2 (session_released_on_every_exit
                     (serve two_paragraphs quit_fails) "http://example.com" 20
                     0%float None false None initial))
    as (evs & E & H & _).
  exists evs. split; [exact E|].
  apply H. vm_compute in E. subst evs. left. reflexivity.
Defined.

(** ** Order of the screenshot *)

Lemma split_unique (Q : event -> Prop) L1 x L2 l1 y l2 :
  Forall (fun ev => ~ Q ev) L1 ->
  Forall (fun ev => ~ Q ev) L2 ->
  Q y ->
  L1 ++ x :: L2 = l1 ++ y :: l2 ->
  l1 = L1 /\ y = x /\ l2 = L2.
Proof.
  intros F1 F2 Qy. revert l1. induction F1 as [|a L1 Na F1 IH]; intros l1 E.
  - destruct l1 as [|c l1]; simpl in E.
    + injection E as <- <-. auto.
    + injection E as <- ->. rewrite Forall_forall in F2.
      exfalso. apply (F2 y); [|exact Qy]. apply in_or_app. right. left.
      reflexivity.
  - destruct l1 as [|c l1]; simpl in E.
    + injection E as <- _. contradiction.
    + injection E as <- E. destruct (IH _ E) as (-> & -> & ->). auto.
Qed.

Lemma no_split (Q : event -> Prop) evs l1 y l2 :
  Forall (fun ev => ~ Q ev) evs -> Q y -> evs = l1 ++ y :: l2 -> False.
Proof.
  intros F Qy ->. rewrite Forall_forall in F. apply (F y); [|exact Qy].
  apply in_or_app. right. left. reflexivity.
Qed.

Lemma Forall2_In_l A B (R : A -> B -> Prop) l l' x :
  Forall2 R l l' -> In x l -> exists y, In y l' /\ R x y.
Proof.
  induction 1 as [|a c l l' Hac _ IH]; intros I; [destruct I|].
  destruct I as [<-|I].
  - exists c. split; [left; reflexivity | exact Hac].
  - destruct (IH I) as (y & Iy & Ry). exists y. split; [right|]; assumption.
Qed.

(** A stage of [open_page] swallows nothing, unless it is a wait, which
    swallows [TimeoutException]. *)
Lemma page_stages_swallow url timeout wait_seconds selector screenshot_path sg :
  In sg (page_stages url timeout wait_seconds selector screenshot_path) ->
  (~ is_wait (fst sg) /\ snd sg = fatal) \/
  (is_wait (fst sg) /\ snd sg = is_TimeoutException).
Proof.
  unfold page_stages, wait_stages, screenshot_stage.
  rewrite !in_app_iff. simpl.
  intros [[[<-|[<-|[<-|[]]]] | [H|H]] | H]; simpl; auto.
  - destruct (PrimFloat.ltb 0 wait_seconds); [|destruct H].
    destruct H as [<-|[]]. simpl. auto.
  - destruct selector as [s|]; [|destruct H].
    destruct (Str.truthy s); [|destruct H].
    destruct H as [<-|[]]. simpl. auto.
  - destruct screenshot_path as [p|]; [|destruct H].
    destruct (Str.truthy p); [|destruct H].
    destruct H as [<-|[]]. simpl. auto.
Qed.

(** An event of a call that is no wait and that raised is the last of
    the stages, and its exception is their outcome. *)
Lemma fatal_event_ends_stages url timeout wait_seconds selector screenshot_path
    evs r c e :
  stages_outcome
    (page_stages url timeout wait_seconds selector screenshot_path) evs r ->
  In (mk_event c (Some e)) evs ->
  ~ is_wait c ->
  r = Raise e /\ exists evs1, evs = evs1 ++ [mk_event c (Some e)].
Proof.
  set (P := page_stages url timeout wait_seconds selector screenshot_path).
  assert (Hpass : forall evs1 p1,
             Forall2 passed evs1 p1 -> (forall sg, In sg p1 -> In sg P) ->
             In (mk_event c (Some e)) evs1 -> ~ is_wait c -> False).
  { intros evs1 p1 F Sub I NW.
    destruct (@Forall2_In_l _ _ _ _ _ _ F I) as (sg & Isg & Hc & Hsw).
    simpl in Hc, Hsw. apply Sub in Isg. unfold P in Isg.
    apply page_stages_swallow in Isg as [[_ S]|[Wt _]].
    - rewrite S in Hsw. discriminate.
    - rewrite <- Hc in Wt. contradiction. }
  intros [Hall | p1 sg p2 evs1 e' Hp -> H1 Hsw] I NW.
  - exfalso. eapply Hpass; eauto.
  - apply in_app_or in I as [I|[I|[]]].
    + exfalso. eapply Hpass; eauto. intros sg' I'. fold P in Hp. rewrite Hp.
      apply in_or_app. auto.
    + injection I as -> ->. eauto.
Qed.

Lemma not_screenshot_start b q :
  Forall (fun ev => ~ is_screenshot (ev_call ev))
    [mk_event (new_chrome b true) None; mk_event hide_webdriver q].
Proof. repeat constructor; simpl; auto. Qed.

Lemma reads_not_screenshot selector evs :
  Forall (is_read selector) evs ->
  Forall (fun ev => ~ is_screenshot (ev_call ev)) evs.
Proof.
  apply Forall_impl. intros ev. unfold is_read.
  destruct (ev_call ev); simpl; tauto.
Qed.

Lemma reads_read_or_quit selector evs q :
  Forall (is_read selector) evs ->
  Forall (fun ev => read_call selector (ev_call ev) \/ ev_call ev = Quit)
    (evs ++ [mk_event Quit q]).
Proof.
  intros F. apply Forall_app. split.
  - eapply Forall_impl; [|exact F]. intros ev H. left. exact H.
  - constructor; [right; reflexivity | constructor].
Qed.

(** Navigation that raised ends the fetch with that exception, and no
    screenshot is taken. *)
Lemma navigation_failure_is_fatal b url timeout wait_seconds selector as_text
    screenshot_path st evs e :
  log (snd (fetch b url timeout wait_seconds selector as_text
                  screenshot_path st)) = log st ++ evs ->
  In (mk_event (Get url) (Some e)) evs ->
  fst (fetch b url timeout wait_seconds selector as_text screenshot_path st)
  = Raise e /\
  Forall (fun ev => ~ is_screenshot (ev_call ev)) evs.
Proof.
  intros E I.
  destruct (fetch_spec b url timeout wait_seconds selector as_text
              screenshot_path st) as (evs' & E' & O).
  rewrite E in E'. apply app_inv_head in E'. subst evs'.
  assert (NW : ~ is_wait (Get url)) by (simpl; auto).
  destruct O as [x | q evs2 x q' O2 | q evs2 evs3 r q' O2 F3 N3 X3];
    simpl in I; unfold hide_webdriver in I.
  - destruct I as [I|[]]. discriminate I.
  - destruct I as [I|[I|I]]; [discriminate I | discriminate I |].
    apply in_app_or in I as [I|[I|[]]]; [|discriminate I].
    destruct (@fatal_event_ends_stages _ _ _ _ _ _ _ _ _ O2 I NW) as (R & evs1 & ->).
    injection R as ->. split; [reflexivity|].
    apply Forall_app. split; [apply not_screenshot_start|].
    apply Forall_app. split; [|repeat constructor; simpl; auto].
    apply page_stages_events in O2
      as [[F _] | (evs1' & p & q0 & _ & _ & E2 & _)].
    + eapply Forall_impl; [|exact F]. intros ev [H _]. exact H.
    + apply app_inj_tail in E2 as [_ E2]. discriminate E2.
  - destruct I as [I|[I|I]]; [discriminate I | discriminate I |].
    apply in_app_or in I as [I|I].
    + destruct (@fatal_event_ends_stages _ _ _ _ _ _ _ _ _ O2 I NW) as (R & _). discriminate R.
    + apply in_app_or in I as [I|[I|[]]]; [|discriminate I].
      rewrite Forall_forall in F3. apply F3 in I. destruct I.
Qed.

(** C7. A screenshot, when one is taken, is taken for the requested path,
    after the session was started and every stage of navigation and
    waiting was gone through (page-load timeout, navigation, the wait for
    the document, the fixed wait and the wait for the selector when
    configured), and only reads of the content and [quit] follow it; so
    it is taken at most once.  A fetch that returns with a path requested
    has taken it.  A fetch whose navigation raised has taken none. *)
Theorem screenshot_once_after_waits_before_content :
  forall b url timeout wait_seconds selector as_text screenshot_path st,
  exists evs,
    log (snd (fetch b url timeout wait_seconds selector as_text
                    screenshot_path st)) = log st ++ evs /\
    (forall l1 ev l2,
       evs = l1 ++ ev :: l2 ->
       is_screenshot (ev_call ev) ->
       (exists p, screenshot_path = Some p /\ Str.truthy p = true /\
                  ev_call ev = SaveScreenshot p) /\
       map ev_call l1
       = [new_chrome b true; hide_webdriver]
           ++ map fst (wait_stages url timeout wait_seconds selector) /\
       Forall (fun ev' => read_call selector (ev_call ev') \/ ev_call ev' = Quit)
              l2) /\
    (Str.truthy_opt screenshot_path = true ->
     forall content,
       fst (fetch b url timeout wait_seconds selector as_text
                  screenshot_path st) = Ok content ->
       exists l1 p l2, evs = l1 ++ mk_event (SaveScreenshot p) None :: l2) /\
    (forall e,
       In (mk_event (Get url) (Some e)) evs ->
       fst (fetch b url timeout wait_seconds selector as_text
                  screenshot_path st) = Raise e /\
       Forall (fun ev => ~ is_screenshot (ev_call ev)) evs).
Proof.
  intros.
  destruct (fetch_spec b url timeout wait_seconds selector as_text
              screenshot_path st) as (evs & E & O).
  exists evs. split; [exact E|].
  split; [|split]; cycle 2.
  { intros e I. eapply navigation_failure_is_fatal; eauto. }
  - (* where the screenshot stands *)
    intros l1 ev l2 Esplit Shot.
    set (Q := fun ev : event => is_screenshot (ev_call ev)).
    destruct O as [x | q evs2 x q' O2 | q evs2 evs3 r q' O2 F3 N3 X3].
    + exfalso. apply (@no_split Q _ l1 ev l2) with (3 := Esplit); [|exact Shot].
      repeat constructor; simpl; auto.
    + apply page_stages_events in O2
        as [[F _] | (evs1 & p & q0 & -> & T & -> & FW & _)].
      * exfalso. apply (@no_split Q _ l1 ev l2) with (3 := Esplit); [|exact Shot].
        apply Forall_app. split; [apply not_screenshot_start|].
        apply Forall_app. split; [|repeat constructor; simpl; auto].
        eapply Forall_impl; [|exact F]. intros a [H _]. exact H.
      * rewrite <- !app_assoc in Esplit. simpl in Esplit.
        change (mk_event (new_chrome b true) None :: mk_event hide_webdriver q
                  :: evs1 ++ mk_event (SaveScreenshot p) q0 :: [mk_event Quit q'])
          with (([mk_event (new_chrome b true) None; mk_event hide_webdriver q]
                   ++ evs1) ++ mk_event (SaveScreenshot p) q0 :: [mk_event Quit q'])
          in Esplit.
        apply (@split_unique Q) in Esplit as (-> & -> & ->); [| | |exact Shot].
        -- split; [eauto|]. split.
           ++ rewrite map_app, (passed_calls FW). reflexivity.
           ++ constructor; [right; reflexivity | constructor].
        -- apply Forall_app. split; [apply not_screenshot_start|].
           apply passed_Forall with (Q := fun c => ~ is_screenshot c)
                                    (p := wait_stages url timeout wait_seconds selector);
             [exact FW|].
           intros sg I. eapply wait_stages_not_screenshot; eauto.
        -- repeat constructor; simpl; auto.
    + apply page_stages_events in O2
        as [[F _] | (evs1 & p & q0 & -> & T & -> & FW & _)].
      * exfalso. apply (@no_split Q _ l1 ev l2) with (3 := Esplit); [|exact Shot].
        apply Forall_app. split; [apply not_screenshot_start|].
        apply Forall_app. split.
        { eapply Forall_impl; [|exact F]. intros a [H _]. exact H. }
        apply Forall_app. split; [eapply reads_not_screenshot; eauto|].
        repeat constructor; simpl; auto.
      * rewrite <- !app_assoc in Esplit. simpl in Esplit.
        change (mk_event (new_chrome b true) None :: mk_event hide_webdriver q
                  :: evs1 ++ mk_event (SaveScreenshot p) q0
                  :: evs3 ++ [mk_event Quit q'])
          with (([mk_event (new_chrome b true) None; mk_event hide_webdriver q]
                   ++ evs1) ++ mk_event (SaveScreenshot p) q0
                  :: (evs3 ++ [mk_event Quit q']))
          in Esplit.
        apply (@split_unique Q) in Esplit as (-> & -> & ->); [| | |exact Shot].
        -- split; [eauto|]. split.
           ++ rewrite map_app, (passed_calls FW). reflexivity.
           ++ apply reads_read_or_quit. exact F3.
        -- apply Forall_app. split; [apply not_screenshot_start|].
           apply passed_Forall with (Q := fun c => ~ is_screenshot c)
                                    (p := wait_stages url timeout wait_seconds selector);
             [exact FW|].
           intros sg I. eapply wait_stages_not_screenshot; eauto.
        -- apply Forall_app. split; [eapply reads_not_screenshot; eauto|].
           repeat constructor; simpl; auto.
  - (* a fetch that returns has taken the screenshot it was asked for *)
    intros T content R.
    destruct O as [x | q evs2 x q' O2 | q evs2 evs3 r q' O2 F3 N3 X3];
      try discriminate.
    apply page_stages_events in O2
      as [[_ F] | (evs1 & p & q0 & -> & _ & -> & _ & Hq)].
    + rewrite F in T by reflexivity. discriminate.
    + destruct q0; [discriminate|].
      exists ([mk_event (new_chrome b true) None; mk_event hide_webdriver q]
                ++ evs1), p, (evs3 ++ [mk_event Quit q']).
      rewrite <- !app_assoc. reflexivity.
Qed.

Lemma screenshot_once_after_waits_before_content_witness :
  fst (fetch (serve two_paragraphs navigation_times_out) "http://example.com" 20
             0%float None false (Some "page.png") initial)
  = Raise (mk_exn TimeoutException "Message: timeout").
Proof.
  destruct (screenshot_once_after_waits_before_content
              (serve two_paragraphs navigation_times_out) "http://example.com" 20
              0%float None false (Some "page.png") initial)
    as (evs & E & _ & _ & H).
  apply H. vm_compute in E. subst evs. right. right. right. left. reflexivity.
Defined.

(** ** Waits that run out of time *)

Lemma page_stages_calls url timeout wait_seconds selector screenshot_path sg :
  In sg (page_stages url timeout wait_seconds selector screenshot_path) ->
  page_call url timeout wait_seconds selector screenshot_path (fst sg).
Proof.
  unfold page_stages, wait_stages, screenshot_stage.
  rewrite !in_app_iff. simpl.
  intros [[[<-|[<-|[<-|[]]]] | [H|H]] | H]; simpl; auto.
  - destruct (PrimFloat.ltb 0 wait_seconds) eqn:W; [|destruct H].
    destruct H as [<-|[]]. simpl. auto.
  - destruct selector as [s|]; [|destruct H].
    destruct (Str.truthy s) eqn:T; [|destruct H].
    destruct H as [<-|[]]. simpl. auto.
  - destruct screenshot_path as [p|]; [|destruct H].
    destruct (Str.truthy p) eqn:T; [|destruct H].
    destruct H as [<-|[]]. simpl. auto.
Qed.



(** ** The command line *)

Lemma append_assoc (s1 s2 s3 : string) : (s1 +++ s2) +++ s3 = s1 +++ s2 +++ s3.
Proof. induction s1 as [|c s1 IH]; simpl; [reflexivity | now rewrite IH]. Qed.

(** What [main] returns and prints, by the outcome of validation and of
    the fetch. *)
Lemma main_run b args st :
  match validate_url (arg_url args) with
  | Raise e =>
      fst (main b args st) = Ok 2%Z /\
      log (snd (main b args st)) = log st /\
      stdout (snd (main b args st)) = stdout st /\
      stderr (snd (main b args st))
      = stderr st +++ "error: " +++ str_of e +++ Str.nl
  | Ok u =>
      let run := fetch b u (arg_timeout args) (arg_wait args)
                       (arg_selector args) (arg_text args)
                       (arg_screenshot args) st in
      log (snd (main b args st)) = log (snd run) /\
      match fst run with
      | Raise e =>
          fst (main b args st) = Ok 1%Z /\
          stdout (snd (main b args st)) = stdout st /\
          stderr (snd (main b args st))
          = stderr st +++ "error: " +++ failure_kind e +++ ": " +++ str_of e
              +++ Str.nl
      | Ok content =>
          fst (main b args st) = Ok 0%Z /\
          stderr (snd (main b args st)) = stderr st /\
          stdout (snd (main b args st))
          = stdout st +++ header u args +++ content +++ Str.nl
      end
  end.
Proof.
  destruct (validate_url (arg_url args)) as [u|e] eqn:V.
  - cbv zeta. unfold main, try_except at 1, lift. rewrite V.
    unfold try_except.
    destruct (fetch_quiet b u (arg_timeout args) (arg_wait args)
                (arg_selector args) (arg_text args) (arg_screenshot args) st)
      as [Qo Qe].
    destruct (fetch b u (arg_timeout args) (arg_wait args) (arg_selector args)
                (arg_text args) (arg_screenshot args) st) as [[content|e] st1];
      simpl in Qo, Qe; simpl fst; simpl snd.
    + unfold header, when_given, bind, print_out, ret.
      destruct (arg_selector args) as [s|]; [destruct (Str.truthy s)|];
        (destruct (arg_screenshot args) as [p|]; [destruct (Str.truthy p)|]);
        cbn [fst snd log stdout stderr]; rewrite Qo, ?Qe;
        (repeat split; try reflexivity);
        repeat (progress (simpl; rewrite ?append_assoc)); reflexivity.
    + unfold failure_kind. destruct (is_WebDriverException e); simpl;
        rewrite Qo, Qe; auto.
  - rewrite (main_rejects b args st V). simpl. auto.
Qed.

(** C8, amended.  [main] returns 0 when the fetch returns, 2 when
    [validate_url] rejects the input and 1 when the fetch raises.  When
    the fetch returns, the standard output receives the header (the
    URL; the selector, when one that is not empty is given, and the mode;
    the screenshot path, when one that is not empty is given; a rule of
    80 dashes) and then the content and a line break, and the standard
    error stream nothing.  When validation fails, the standard error
    stream receives [error: ] and the kind of the failure, [empty_url] or
    [url_must_start_with_http_or_https], without any detail.  When the
    fetch raises, it receives [error: ], the kind
    ([selenium_webdriver_failed] or [fetch_failed]), [: ] and the text of
    the exception as it is, one line or several.  On a failure the
    standard output receives nothing. *)
Theorem main_return_value_and_streams :
  forall b args st,
    match validate_url (arg_url args) with
    | Raise e =>
        fst (main b args st) = Ok 2%Z /\
        stdout (snd (main b args st)) = stdout st /\
        stderr (snd (main b args st))
        = stderr st +++ "error: " +++ str_of e +++ Str.nl /\
        (str_of e = "empty_url" \/
         str_of e = "url_must_start_with_http_or_https")
    | Ok u =>
        match fst (fetch b u (arg_timeout args) (arg_wait args)
                         (arg_selector args) (arg_text args)
                         (arg_screenshot args) st) with
        | Raise e =>
            fst (main b args st) = Ok 1%Z /\
            stdout (snd (main b args st)) = stdout st /\
            stderr (snd (main b args st))
            = stderr st +++ "error: " +++ failure_kind e +++ ": " +++ str_of e
                +++ Str.nl
        | Ok content =>
            fst (main b args st) = Ok 0%Z /\
            stderr (snd (main b args st)) = stderr st /\
            stdout (snd (main b args st))
            = stdout st +++ header u args +++ content +++ Str.nl
        end
    end.
Proof.
  intros. pose proof (main_run b args st) as H.
  destruct (validate_url (arg_url args)) as [u|e] eqn:V.
  - cbv zeta in H. destruct H as [_ H]. exact H.
  - destruct H as (R & _ & O & S). repeat split; try assumption.
    rewrite validate_url_cases in V.
    destruct (negb _); [injection V as <-; left; reflexivity|].
    destruct (_ || _); [discriminate | injection V as <-; right; reflexivity].
Qed.

Lemma count_nl_append s1 s2 : count_nl (s1 +++ s2) = count_nl s1 + count_nl s2.
Proof. induction s1 as [|c s1 IH]; simpl; [reflexivity | rewrite IH; lia]. Qed.

Lemma contains_nl_false s : Str.contains Str.nl s = false -> count_nl s = 0.
Proof.
  induction s as [|c s IH]; [reflexivity|].
  unfold Str.nl in *. cbn [Str.contains String.prefix count_nl].
  destruct (ascii_dec (ascii_of_nat 10) c) as [<-|N].
  - destruct s; discriminate.
  - destruct (Ascii.eqb_spec c (ascii_of_nat 10)); [congruence|].
    exact IH.
Qed.

Lemma prefix_append s r : String.prefix s (s +++ r) = true.
Proof.
  induction s as [|c s IH]; simpl; [destruct r; reflexivity|].
  destruct (ascii_dec c c); [exact IH | congruence].
Qed.

Lemma contains_unfold sub s :
  Str.contains sub s
  = String.prefix sub s
    || match s with
       | EmptyString => false
       | String _ s' => Str.contains sub s'
       end.
Proof. destruct s; reflexivity. Qed.

Lemma contains_middle sub k r : Str.contains sub (k +++ sub +++ r) = true.
Proof.
  induction k as [|c k IH].
  - change ("" +++ sub +++ r) with (sub +++ r).
    rewrite contains_unfold, prefix_append. reflexivity.
  - change (String c k +++ sub +++ r) with (String c (k +++ sub +++ r)).
    rewrite contains_unfold, IH. apply orb_true_r.
Qed.

Lemma error_line_one_nl s : error_line s -> count_nl s = 1.
Proof.
  intros (k & d & -> & Nk & Nd). rewrite !count_nl_append.
  rewrite (contains_nl_false _ Nk), (contains_nl_false _ Nd). reflexivity.
Qed.

Lemma error_line_two_colons s :
  error_line s -> Str.contains ": " (drop 7 s) = true.
Proof.
  intros (k & d & -> & _).
  change (drop 7 ("error: " +++ k +++ ": " +++ d +++ Str.nl))
    with (k +++ ": " +++ d +++ Str.nl).
  apply contains_middle.
Qed.

(** C8, as stated, fails: after a validation failure the line has a kind
    and no detail; after a failure of the driver the text of the
    exception spans several lines. *)
Lemma stderr_is_not_always_one_kind_detail_line :
  ~ error_line
      (stderr (snd (main (serve two_paragraphs no_faults)
                         (mk_args "" 20 0%float None false None) initial))) /\
  ~ error_line
      (stderr (snd (main (serve two_paragraphs navigation_fails)
                         (mk_args "http://example.com" 20 0%float None false None)
                         initial))).
Proof.
  split; intros H.
  - apply error_line_two_colons in H. vm_compute in H. discriminate H.
  - apply error_line_one_nl in H. vm_compute in H. discriminate H.
Qed.

(** ** Validation and the start of the browser *)

(** [main] always returns one of its three values; it lets no exception
    of the model escape. *)
Lemma main_returns b args st :
  exists code, fst (main b args st) = Ok code /\ (code = 0 \/ code = 1 \/ code = 2)%Z.
Proof.
  pose proof (main_run b args st) as H.
  destruct (validate_url (arg_url args)) as [u|e].
  - cbv zeta in H. destruct H as [_ H].
    destruct (fst (fetch b u _ _ _ _ _ st)) as [content|e];
      destruct H as (-> & _); eauto.
  - destruct H as (-> & _). eauto.
Qed.

(** C2.  On every input that [validate_url] rejects, [main] returns 2
    and makes no call to the browser; for the empty URL it prints
    [error: empty_url].  The script, however, drops the value [main]
    returns and ends with status 0, on this input as on every other. *)
Theorem invalid_url_starts_no_browser_but_exit_status_is_zero :
  (forall b args st,
     match validate_url (arg_url args) with
     | Raise _ =>
         fst (main b args st) = Ok 2%Z /\ log (snd (main b args st)) = log st
     | Ok _ => True
     end) /\
  (forall b,
     main b (mk_args "" 20 0%float None false None) initial
     = (Ok 2%Z, {| log := []; driver := None; stdout := "";
                   stderr := "error: empty_url" +++ Str.nl |})) /\
  (forall b,
     exit_status (script b (mk_args "" 20 0%float None false None)) = 0%Z) /\
  (forall b args, exit_status (script b args) = 0%Z).
Proof.
  assert (Z0 : forall b args, exit_status (script b args) = 0%Z).
  { intros b args. unfold script.
    destruct (main_returns b args initial) as (code & R & _).
    destruct (main b args initial) as [[c|e] st]; [reflexivity|].
    simpl in R. discriminate R. }
  split; [|split; [|split]].
  - intros b args st. destruct (validate_url (arg_url args)) as [u|e] eqn:V;
      [exact I|].
    rewrite (main_rejects b args st V). split; reflexivity.
  - intros b. reflexivity.
  - intros b. apply Z0.
  - exact Z0.
Qed.

(** The first stage, and what follows it. *)
Lemma stages_outcome_cons_inv c swallowed p evs r :
  stages_outcome ((c, swallowed) :: p) evs r ->
  exists q evs',
    evs = mk_event c q :: evs' /\
    match q with
    | None => stages_outcome p evs' r
    | Some e =>
        if swallowed e then stages_outcome p evs' r
        else evs' = [] /\ r = Raise e
    end.
Proof.
  intros [Hall | p1 sg p2 evs1 e Hp -> H1 Hsw].
  - inversion Hall as [|ev sg evs' p' [Hc Hq] Hrest]; subst.
    destruct ev as [c' q]. simpl in Hc, Hq. subst c'.
    exists q, evs'. split; [reflexivity|].
    destruct q as [e|]; [rewrite Hq|]; apply all_passed; assumption.
  - destruct p1 as [|s1 p1]; simpl in Hp.
    + injection Hp as <- <-. inversion H1; subst. simpl in *.
      exists (Some e), []. rewrite Hsw. auto.
    + injection Hp as <- ->.
      inversion H1 as [|ev sg' evs1' p' [Hc Hq] Hrest]; subst.
      destruct ev as [c' q]. simpl in Hc, Hq. subst c'.
      exists q, (evs1' ++ [mk_event (fst sg) (Some e)]).
      split; [reflexivity|].
      destruct q as [e'|]; [rewrite Hq|]; eapply one_failed; eauto.
Qed.

(** C10.  [fetch] does not look at the URL before it starts the browser
    and navigates: whatever the string, its first call is
    [webdriver.Chrome(...)]; when that returns, the page-load timeout is
    set, and when that returns, [get] is called with the string as it was
    given.  The check is made by [main]: on a string [validate_url]
    rejects it makes no call, on one it accepts it begins with the start
    of the browser. *)
Theorem fetch_starts_browser_without_validating :
  (forall b url timeout wait_seconds selector as_text screenshot_path st,
     exists q rest,
       log (snd (fetch b url timeout wait_seconds selector as_text
                       screenshot_path st))
       = log st ++ mk_event (new_chrome b true) q :: rest /\
       (q = None ->
        exists q1 q2 rest',
          rest = mk_event hide_webdriver q1
                   :: mk_event (SetPageLoadTimeout timeout) q2 :: rest' /\
          (q2 = None ->
           exists q3 rest'', rest' = mk_event (Get url) q3 :: rest''))) /\
  (forall b args st e,
     validate_url (arg_url args) = Raise e ->
     log (snd (main b args st)) = log st) /\
  (forall b args st u,
     validate_url (arg_url args) = Ok u ->
     exists q rest,
       log (snd (main b args st))
       = log st ++ mk_event (new_chrome b true) q :: rest) /\
  validate_url "not a url" = Raise bad_scheme /\
  history (snd (fetch (serve two_paragraphs no_faults) "not a url" 20 0%float
                      None false None initial))
  = [ new_chrome (serve two_paragraphs no_faults) true; hide_webdriver;
      SetPageLoadTimeout 20; Get "not a url"; WaitReady 20; PageSource; Quit ].
Proof.
  assert (F : forall b url timeout wait_seconds selector as_text
                     screenshot_path st,
             exists q rest,
               log (snd (fetch b url timeout wait_seconds selector as_text
                               screenshot_path st))
               = log st ++ mk_event (new_chrome b true) q :: rest /\
               (q = None ->
                exists q1 q2 rest',
                  rest = mk_event hide_webdriver q1
                           :: mk_event (SetPageLoadTimeout timeout) q2 :: rest' /\
                  (q2 = None ->
                   exists q3 rest'', rest' = mk_event (Get url) q3 :: rest''))).
  { intros.
    destruct (fetch_spec b url timeout wait_seconds selector as_text
                screenshot_path st) as (evs & E & O).
    assert (S : forall evs2 r tail,
               stages_outcome
                 (page_stages url timeout wait_seconds selector screenshot_path)
                 evs2 r ->
               exists q2 rest',
                 evs2 ++ tail = mk_event (SetPageLoadTimeout timeout) q2 :: rest' /\
                 (q2 = None ->
                  exists q3 rest'', rest' = mk_event (Get url) q3 :: rest'')).
    { intros evs2 r tail O2. unfold page_stages, wait_stages in O2.
      simpl in O2.
      apply stages_outcome_cons_inv in O2 as (q2 & evs' & -> & O2).
      exists q2, (evs' ++ tail). split; [reflexivity|]. intros ->.
      apply stages_outcome_cons_inv in O2 as (q3 & evs'' & -> & _).
      simpl. eauto. }
    destruct O as [x | q evs2 x q' O2 | q evs2 evs3 r q' O2 F3 N3 X3].
    - exists (Some x), []. split; [exact E | discriminate].
    - destruct (S evs2 _ [mk_event Quit q'] O2) as (q2 & rest' & E2 & H).
      exists None. eexists. split; [exact E|]. intros _.
      exists q, q2, rest'. simpl. rewrite E2. auto.
    - destruct (S evs2 _ (evs3 ++ [mk_event Quit q']) O2)
        as (q2 & rest' & E2 & H).
      exists None. eexists. split; [exact E|]. intros _.
      exists q, q2, rest'. simpl. rewrite E2. auto. }
  split; [exact F|]. split; [|split; [|split]].
  - intros b args st e V. rewrite (main_rejects b args st V). reflexivity.
  - intros b args st u V. pose proof (main_run b args st) as H.
    rewrite V in H. cbv zeta in H. destruct H as [-> _].
    destruct (F b u (arg_timeout args) (arg_wait args) (arg_selector args)
                (arg_text args) (arg_screenshot args) st) as (q & rest & E & _).
    eauto.
  - reflexivity.
  - vm_compute. reflexivity.
Qed.

Lemma fetch_starts_browser_without_validating_witness :
  log (snd (main (serve two_paragraphs no_faults)
                 (mk_args "not a url" 20 0%float None false None) initial))
  = log initial.
Proof.
  apply (proj1 (proj2 fetch_starts_browser_without_validating)
           (serve two_paragraphs no_faults)
           (mk_args "not a url" 20 0%float None false None) initial bad_scheme).
  reflexivity.
Defined.


(** * Further properties *)

(** ** Stripping *)

Lemma all_space_append s1 s2 :
  Str.all_space (s1 +++ s2) = Str.all_space s1 && Str.all_space s2.
Proof.
  induction s1 as [|c s1 IH]; simpl; [reflexivity|].
  rewrite IH. apply andb_assoc.
Qed.

(** [lstrip] takes a run of whitespace off the front. *)
Lemma lstrip_split s :
  exists l, s = l +++ Str.lstrip s /\ Str.all_space l = true /\
            starts_with_space (Str.lstrip s) = false.
Proof.
  induction s as [|c s (l & E & A & N)].
  - exists "". auto.
  - simpl. destruct (Str.isspace c) eqn:Sp.
    + exists (String c l). simpl. rewrite Sp, A, <- E. auto.
    + exists "". simpl. auto.
Qed.

(** [rstrip] takes a run of whitespace off the back. *)
Lemma rstrip_split s :
  exists r, s = Str.rstrip s +++ r /\ Str.all_space r = true /\
            ends_with_space (Str.rstrip s) = false.
Proof.
  induction s as [|c s (r & E & A & N)].
  - exists "". auto.
  - simpl. destruct (Str.rstrip s) as [|d t] eqn:R.
    + simpl in E. subst r. destruct (Str.isspace c) eqn:Sp.
      * exists (String c s). simpl. rewrite Sp, A. auto.
      * exists s. simpl. rewrite Sp. auto.
    + exists r. split; [|split; [exact A | exact N]].
      simpl. simpl in E. rewrite <- E. reflexivity.
Qed.

Lemma rstrip_keeps_front s :
  starts_with_space s = false -> starts_with_space (Str.rstrip s) = false.
Proof.
  destruct s as [|c s]; [reflexivity|]. simpl. intros Sp.
  destruct (Str.rstrip s); [rewrite Sp|]; simpl; auto.
Qed.

Lemma lstrip_fixed s : starts_with_space s = false -> Str.lstrip s = s.
Proof. destruct s as [|c s]; simpl; [reflexivity | intros ->; reflexivity]. Qed.

Lemma rstrip_fixed s : ends_with_space s = false -> Str.rstrip s = s.
Proof.
  induction s as [|c s IH]; [reflexivity|].
  simpl. destruct s as [|d t].
  - simpl. intros ->. reflexivity.
  - intros H. rewrite (IH H). reflexivity.
Qed.

(** [strip] takes whitespace off both ends and nothing else. *)
Lemma strip_split s :
  exists l r,
    s = l +++ Str.strip s +++ r /\
    Str.all_space l = true /\ Str.all_space r = true /\
    starts_with_space (Str.strip s) = false /\
    ends_with_space (Str.strip s) = false.
Proof.
  destruct (lstrip_split s) as (l & El & Al & Nl).
  destruct (rstrip_split (Str.lstrip s)) as (r & Er & Ar & Nr).
  exists l, r. unfold Str.strip. rewrite <- Er, <- El.
  repeat split; auto. apply rstrip_keeps_front, Nl.
Qed.

Lemma strip_fixed s :
  starts_with_space s = false -> ends_with_space s = false -> Str.strip s = s.
Proof.
  intros H1 H2. unfold Str.strip. rewrite (lstrip_fixed _ H1).
  apply rstrip_fixed, H2.
Qed.

Lemma strip_empty_all_space s : Str.strip s = "" -> Str.all_space s = true.
Proof.
  intros H. destruct (strip_split s) as (l & r & E & Al & Ar & _).
  rewrite H in E. simpl in E. rewrite E, all_space_append, Al, Ar. reflexivity.
Qed.

(** X1.  The URL [validate_url] returns is the input without the
    whitespace at its two ends: the input is that URL between two runs of
    whitespace, and the URL neither begins nor ends with whitespace. *)
Theorem validate_url_only_trims :
  forall url u,
    validate_url url = Ok u ->
    exists l r,
      url = l +++ u +++ r /\
      Str.all_space l = true /\ Str.all_space r = true /\
      starts_with_space u = false /\ ends_with_space u = false.
Proof.
  intros url u H. apply validate_url_ok in H as (-> & _). apply strip_split.
Qed.

Lemma validate_url_only_trims_witness :
  exists l r,
    "  https://example.com/a b  " = l +++ "https://example.com/a b" +++ r /\
    Str.all_space l = true /\ Str.all_space r = true /\
    starts_with_space "https://example.com/a b" = false /\
    ends_with_space "https://example.com/a b" = false.
Proof.
  apply (validate_url_only_trims "  https://example.com/a b  ").
  reflexivity.
Defined.

(** X2.  [validate_url] is idempotent: a URL it returns is accepted
    again, unchanged. *)
Theorem validate_url_idempotent :
  forall url u, validate_url url = Ok u -> validate_url u = Ok u.
Proof.
  intros url u H.
  destruct (validate_url_only_trims _ H) as (_ & _ & _ & _ & _ & N1 & N2).
  apply validate_url_ok in H as (_ & T & P).
  rewrite validate_url_cases, (strip_fixed _ N1 N2), T. simpl.
  destruct P as [-> | ->]; [reflexivity | rewrite orb_true_r; reflexivity].
Qed.

Lemma validate_url_idempotent_witness :
  validate_url "http://example.com" = Ok "http://example.com".
Proof.
  apply (validate_url_idempotent " http://example.com ").
  reflexivity.
Defined.

(** X3.  [validate_url] raises [empty_url] exactly on the inputs made of
    whitespace only (the empty one included), and
    [url_must_start_with_http_or_https] exactly on the other inputs whose
    stripped form begins with neither scheme; it raises nothing else. *)
Theorem validate_url_error_kinds :
  forall url,
    (validate_url url = Raise empty_url <-> Str.all_space url = true) /\
    (validate_url url = Raise bad_scheme <->
       Str.all_space url = false /\
       Str.startswith (Str.strip url) "http://" = false /\
       Str.startswith (Str.strip url) "https://" = false) /\
    (forall e, validate_url url = Raise e -> e = empty_url \/ e = bad_scheme).
Proof.
  intros url. rewrite validate_url_cases.
  destruct (Str.truthy (Str.strip url)) eqn:T; simpl.
  - assert (A : Str.all_space url = false).
    { destruct (Str.all_space url) eqn:A; [|reflexivity].
      rewrite (strip_all_space _ A) in T. discriminate T. }
    destruct (Str.startswith (Str.strip url) "http://") eqn:P1; simpl;
      [|destruct (Str.startswith (Str.strip url) "https://") eqn:P2];
      rewrite A; repeat split; intros; try discriminate; intuition congruence.
  - apply truthy_false in T.
    rewrite (strip_empty_all_space _ T). repeat split; intros; auto;
      try discriminate; intuition congruence.
Qed.

Lemma validate_url_error_kinds_witness :
  validate_url (String (ascii_of_nat 10) "  ") = Raise empty_url.
Proof.
  apply (proj2 (proj1 (validate_url_error_kinds (String (ascii_of_nat 10) "  ")))).
  reflexivity.
Defined.

(** ** Starting the browser *)

Lemma or_none_strip v :
  or_none (Str.strip v) = if Str.all_space v then None else Some (Str.strip v).
Proof.
  unfold or_none. destruct (Str.all_space v) eqn:A.
  - rewrite (strip_all_space _ A). reflexivity.
  - destruct (Str.truthy (Str.strip v)) eqn:T; [reflexivity|].
    apply truthy_false, strip_empty_all_space in T. congruence.
Qed.

(** X4.  [build_driver] takes the browser binary from [CHROME_BINARY] and
    the driver executable from [CHROMEDRIVER_PATH], stripped; a variable
    that is unset, empty or made of whitespace only counts as not given:
    the binary location is then left alone and the service is created
    without a path. *)
Theorem build_driver_reads_environment :
  forall b headless,
    binary_location (chrome_options b headless)
    = match environ b "CHROME_BINARY" with
      | Some v => if Str.all_space v then None else Some (Str.strip v)
      | None => None
      end /\
    chromedriver_path b
    = match environ b "CHROMEDRIVER_PATH" with
      | Some v => if Str.all_space v then None else Some (Str.strip v)
      | None => None
      end /\
    exists q rest,
      log (snd (build_driver b headless initial))
      = mk_event (NewChrome (chromedriver_path b) (chrome_options b headless)) q
          :: rest.
Proof.
  intros b headless. unfold chrome_options, chromedriver_path, getenv.
  cbn [binary_location]. split; [|split].
  - destruct (environ b "CHROME_BINARY") as [v|]; [apply or_none_strip|].
    reflexivity.
  - destruct (environ b "CHROMEDRIVER_PATH") as [v|]; [apply or_none_strip|].
    reflexivity.
  - rewrite build_driver_run.
    destruct (answer_unit b _) as [[]|e]; simpl; eauto.
Qed.

(** X5.  [build_driver] returns the driver exactly when
    [webdriver.Chrome(...)] returns: when that raises, the exception is
    the outcome and no other call is made; when it returns, the script
    that hides [navigator.webdriver] is registered, and whether this call
    returns or raises the driver is returned. *)
Theorem build_driver_ignores_injection_failure :
  forall b headless st,
    match answer_unit b (history st ++ [new_chrome b headless]) with
    | Raise e =>
        build_driver b headless st
        = (Raise e, logged st [mk_event (new_chrome b headless) (Some e)])
    | Ok _ =>
        exists q,
          build_driver b headless st
          = (Ok Chrome,
             logged st [mk_event (new_chrome b headless) None;
                        mk_event hide_webdriver q]) /\
          q = raised (answer_unit b
                        (history st ++ [new_chrome b headless; hide_webdriver]))
    end.
Proof.
  intros. rewrite build_driver_run.
  destruct (answer_unit b (history st ++ [new_chrome b headless])) as [[]|e];
    eauto.
Qed.

(** X6.  When [webdriver.Chrome(...)] raises, [fetch] raises the same
    exception after this one call: nothing is navigated to, and [quit] is
    not called, there being no driver.  [main] then prints the error
    with its kind and the text of the exception and returns 1. *)
Theorem session_start_failure_ends_fetch :
  forall b url timeout wait_seconds selector as_text screenshot_path st e,
    answer_unit b (history st ++ [new_chrome b true]) = Raise e ->
    fetch b url timeout wait_seconds selector as_text screenshot_path st
    = (Raise e,
       logged (with_driver None st) [mk_event (new_chrome b true) (Some e)]) /\
    forall args,
      validate_url (arg_url args) = Ok url ->
      arg_timeout args = timeout -> arg_wait args = wait_seconds ->
      arg_selector args = selector -> arg_text args = as_text ->
      arg_screenshot args = screenshot_path ->
      fst (main b args st) = Ok 1%Z /\
      log (snd (main b args st))
      = log st ++ [mk_event (new_chrome b true) (Some e)] /\
      stdout (snd (main b args st)) = stdout st /\
      stderr (snd (main b args st))
      = stderr st +++ "error: " +++ failure_kind e +++ ": " +++ str_of e
          +++ Str.nl.
Proof.
  intros b url timeout wait_seconds selector as_text screenshot_path st e H.
  assert (F : fetch b url timeout wait_seconds selector as_text
                    screenshot_path st
              = (Raise e,
                 logged (with_driver None st)
                        [mk_event (new_chrome b true) (Some e)])).
  { rewrite fetch_run, build_driver_run.
    change (history (with_driver None st)) with (history st).
    rewrite H. reflexivity. }
  split; [exact F|].
  intros args V <- <- <- <- <-.
  pose proof (main_run b args st) as R. rewrite V in R. cbv zeta in R.
  rewrite F in R. simpl in R. destruct R as (L & C & O & E).
  rewrite L. auto.
Qed.

Lemma session_start_failure_ends_fetch_witness :
  fetch (serve two_paragraphs chrome_does_not_start) "http://example.com" 20
        0%float None false None initial
  = (Raise (mk_exn WebDriverException
              ("Message: unable to obtain driver for chrome" +++ Str.nl)),
     logged (with_driver None initial)
       [mk_event (new_chrome (serve two_paragraphs chrome_does_not_start) true)
          (Some (mk_exn WebDriverException
                   ("Message: unable to obtain driver for chrome" +++ Str.nl)))]).
Proof.
  apply (proj1 (@session_start_failure_ends_fetch
                  (serve two_paragraphs chrome_does_not_start)
                  "http://example.com" 20 0%float None false None initial
                  (mk_exn WebDriverException
                     ("Message: unable to obtain driver for chrome" +++ Str.nl))
                  eq_refl)).
Defined.

(** ** The order of the calls *)

Lemma firstn_length_app A (l1 l2 : list A) : firstn (length l1) (l1 ++ l2) = l1.
Proof. induction l1 as [|x l1 IH]; simpl; [destruct l2|rewrite IH]; reflexivity. Qed.

Lemma firstn_whole A (l : list A) : firstn (length l) l = l.
Proof. induction l as [|x l IH]; simpl; [|rewrite IH]; reflexivity. Qed.

(** The calls of a run of stages are an initial segment of the calls of
    the stages, and all of them when the run returns. *)
Lemma stages_calls_prefix p evs r :
  stages_outcome p evs r ->
  map ev_call evs = firstn (length evs) (map fst p) /\
  (r = Ok tt -> map ev_call evs = map fst p).
Proof.
  intros [Hall | p1 sg p2 evs1 e -> -> H1 Hsw].
  - pose proof (passed_calls Hall) as C. split; [|intros _; exact C].
    rewrite <- C, <- (length_map ev_call). symmetry. apply firstn_whole.
  - split; [|discriminate].
    pose proof (passed_calls H1) as C.
    rewrite !map_app. simpl. rewrite C.
    change (map fst p1 ++ fst sg :: map fst p2)
      with (map fst p1 ++ [fst sg] ++ map fst p2).
    rewrite app_assoc.
    replace (length (evs1 ++ [mk_event (fst sg) (Some e)]))
      with (length (map fst p1 ++ [fst sg])).
    + symmetry. apply firstn_length_app.
    + rewrite !length_app, length_map. simpl.
      apply (f_equal (@length _)) in C. rewrite !length_map in C. lia.
Qed.

(** The calls of a fetch: an initial segment of the plan, then the reads
    of the content when the plan was gone through, then [quit] when there
    was a session. *)
Lemma fetch_calls b url timeout wait_seconds selector as_text screenshot_path st :
  exists n reads tail,
    history (snd (fetch b url timeout wait_seconds selector as_text
                        screenshot_path st))
    = history st
        ++ firstn n (fetch_plan b url timeout wait_seconds selector
                                screenshot_path)
        ++ reads ++ tail /\
    Forall (read_call selector) reads /\
    ((n = 1 /\ reads = [] /\ tail = []) \/ (2 <= n /\ tail = [Quit])) /\
    (reads <> [] ->
     firstn n (fetch_plan b url timeout wait_seconds selector screenshot_path)
     = fetch_plan b url timeout wait_seconds selector screenshot_path) /\
    (forall content,
       fst (fetch b url timeout wait_seconds selector as_text
                  screenshot_path st) = Ok content ->
       reads <> [] /\ tail = [Quit]).
Proof.
  destruct (fetch_spec b url timeout wait_seconds selector as_text
              screenshot_path st) as (evs & E & O).
  unfold history at 1. rewrite E, map_app. fold (history st).
  destruct O as [x | q evs2 x q' O2 | q evs2 evs3 r q' O2 F3 N3 X3].
  - exists 1, [], []. repeat split; auto; try discriminate.
    intros H. congruence.
  - destruct (stages_calls_prefix O2) as [C _].
    exists (2 + length evs2), [], [Quit]. repeat split; auto; try discriminate.
    + rewrite !map_app, C. reflexivity.
    + right. split; [lia | reflexivity].
    + intros H. congruence.
  - destruct (stages_calls_prefix O2) as [_ C]. specialize (C eq_refl).
    assert (W : firstn (2 + length (map fst
                  (page_stages url timeout wait_seconds selector screenshot_path)))
                  (fetch_plan b url timeout wait_seconds selector screenshot_path)
                = fetch_plan b url timeout wait_seconds selector screenshot_path).
    { unfold fetch_plan. simpl. rewrite firstn_whole. reflexivity. }
    exists (2 + length (map fst (page_stages url timeout wait_seconds selector
                                             screenshot_path))),
           (map ev_call evs3), [Quit].
    repeat split; auto.
    + rewrite W, !map_app, C. unfold fetch_plan. rewrite <- !app_assoc.
      reflexivity.
    + apply Forall_map. exact F3.
    + right. split; [lia | reflexivity].
    + destruct evs3; [congruence | discriminate].
Qed.

Lemma firstn_In A (c : A) n l : In c (firstn n l) -> In c l.
Proof.
  revert l. induction n as [|n IH]; intros [|x l]; simpl; try tauto.
  intros [H|H]; [left; exact H | right; apply IH, H].
Qed.

(** No call of the plan is [quit], and no read is. *)
Lemma plan_without_quit b url timeout wait_seconds selector screenshot_path
    n reads :
  Forall (read_call selector) reads ->
  Forall (fun c => c <> Quit)
    (firstn n (fetch_plan b url timeout wait_seconds selector screenshot_path)
       ++ reads).
Proof.
  intros R. apply Forall_app. split.
  - apply Forall_forall. intros c I. apply firstn_In in I.
    unfold fetch_plan in I. apply in_app_or in I as [[<-|[<-|[]]]|I];
      try discriminate.
    apply in_map_iff in I as (sg & <- & I). apply page_stages_calls in I.
    intros Q. rewrite Q in I. exact I.
  - eapply Forall_impl; [|exact R]. intros c H Q. rewrite Q in H. exact H.
Qed.

(** X7.  The calls of a fetch follow one order: an initial segment of
    browser start, script registration, page-load timeout, navigation,
    wait for the document, fixed wait, wait for the selector and
    screenshot (the last three when configured); then, only when that
    sequence was gone through to its end, the reads of the content; then
    [quit].  When the browser start raised, it is the only call and its
    exception is the outcome of the fetch, without any [quit]; when it
    returned, [quit] is the last call, and it is made nowhere else.  A
    fetch that returns went through all of it. *)
Theorem fetch_calls_follow_the_plan :
  forall b url timeout wait_seconds selector as_text screenshot_path st,
  exists evs n reads tail,
    log (snd (fetch b url timeout wait_seconds selector as_text
                    screenshot_path st)) = log st ++ evs /\
    map ev_call evs
    = firstn n (fetch_plan b url timeout wait_seconds selector screenshot_path)
        ++ reads ++ tail /\
    Forall (fun c => c <> Quit)
      (firstn n (fetch_plan b url timeout wait_seconds selector screenshot_path)
         ++ reads) /\
    Forall (read_call selector) reads /\
    ((exists e,
        evs = [mk_event (new_chrome b true) (Some e)] /\
        fst (fetch b url timeout wait_seconds selector as_text
                   screenshot_path st) = Raise e /\
        n = 1 /\ reads = [] /\ tail = [])
     \/
     (exists rest,
        evs = mk_event (new_chrome b true) None :: rest /\
        2 <= n /\ tail = [Quit])) /\
    (reads <> [] ->
     firstn n (fetch_plan b url timeout wait_seconds selector screenshot_path)
     = fetch_plan b url timeout wait_seconds selector screenshot_path) /\
    (forall content,
       fst (fetch b url timeout wait_seconds selector as_text
                  screenshot_path st) = Ok content ->
       reads <> [] /\ tail = [Quit]).
Proof.
  intros.
  destruct (fetch_spec b url timeout wait_seconds selector as_text
              screenshot_path st) as (evs & E & O).
  exists evs.
  destruct O as [x | q evs2 x q' O2 | q evs2 evs3 r q' O2 F3 N3 X3].
  - exists 1, [], []. split; [exact E|]. split; [reflexivity|].
    split; [apply plan_without_quit; constructor|].
    split; [constructor|]. split; [left; exists x; auto|].
    split; [congruence | discriminate].
  - destruct (stages_calls_prefix O2) as [C _].
    exists (2 + length evs2), [], [Quit]. split; [exact E|]. split.
    { rewrite !map_app, C. reflexivity. }
    split; [apply plan_without_quit; constructor|].
    split; [constructor|]. split.
    { right. eexists. split; [reflexivity|]. split; [lia | reflexivity]. }
    split; [congruence | discriminate].
  - destruct (stages_calls_prefix O2) as [_ C]. specialize (C eq_refl).
    assert (W : firstn (2 + length (map fst
                  (page_stages url timeout wait_seconds selector screenshot_path)))
                  (fetch_plan b url timeout wait_seconds selector screenshot_path)
                = fetch_plan b url timeout wait_seconds selector screenshot_path).
    { unfold fetch_plan. simpl. rewrite firstn_whole. reflexivity. }
    assert (R : Forall (read_call selector) (map ev_call evs3))
      by (apply Forall_map; exact F3).
    exists (2 + length (map fst (page_stages url timeout wait_seconds selector
                                             screenshot_path))),
           (map ev_call evs3), [Quit].
    split; [exact E|]. split.
    { rewrite W, !map_app, C. unfold fetch_plan. rewrite <- !app_assoc.
      reflexivity. }
    split; [apply plan_without_quit; exact R|].
    split; [exact R|]. split.
    { right. eexists. split; [reflexivity|]. split; [lia | reflexivity]. }
    split; [intros _; exact W|].
    intros content _. split; [|reflexivity].
    destruct evs3; [congruence | discriminate].
Qed.

Lemma fetch_calls_follow_the_plan_witness :
  exists evs n reads tail,
    log (snd (fetch (serve two_paragraphs selector_is_invalid)
                    "http://example.com" 20 1.5%float (Some "p[") true
                    (Some "page.png") initial))
    = log initial ++ evs /\
    map ev_call evs
    = firstn n (fetch_plan (serve two_paragraphs selector_is_invalid)
                  "http://example.com" 20 1.5%float (Some "p[")
                  (Some "page.png"))
        ++ reads ++ tail /\
    (reads <> [] ->
     firstn n (fetch_plan (serve two_paragraphs selector_is_invalid)
                 "http://example.com" 20 1.5%float (Some "p[")
                 (Some "page.png"))
     = fetch_plan (serve two_paragraphs selector_is_invalid)
         "http://example.com" 20 1.5%float (Some "p[") (Some "page.png")).
Proof.
  destruct (fetch_calls_follow_the_plan
              (serve two_paragraphs selector_is_invalid)
              "http://example.com" 20 1.5%float (Some "p[") true
              (Some "page.png") initial)
    as (evs & n & reads & tail & E & C & _ & _ & _ & H & _).
  exists evs, n, reads, tail. split; [exact E|]. split; [exact C | exact H].
Defined.

(** ** Navigation and the fixed wait *)

Lemma reads_filter (f : call -> bool) selector reads :
  Forall (read_call selector) reads ->
  (forall c, read_call selector c -> f c = false) ->
  filter f reads = [].
Proof.
  intros F H. induction F as [|c reads Hc _ IH]; [reflexivity|].
  simpl. rewrite (H c Hc). exact IH.
Qed.

Ltac plan_cases wait_seconds selector screenshot_path n :=
  unfold fetch_plan, page_stages, wait_stages, screenshot_stage;
  destruct (PrimFloat.ltb 0 wait_seconds);
  (destruct selector as [?s|]; [destruct (Str.truthy s)|]);
  (destruct screenshot_path as [?p|]; [destruct (Str.truthy p)|]);
  simpl; do 9 (try (destruct n as [|n]; [simpl; auto|])); simpl; auto.

(** In every initial segment of the plan there is at most one navigation,
    to the URL given. *)
Lemma plan_navigations b url timeout wait_seconds selector screenshot_path n :
  filter is_get (firstn n (fetch_plan b url timeout wait_seconds selector
                                      screenshot_path)) = []
  \/
  filter is_get (firstn n (fetch_plan b url timeout wait_seconds selector
                                      screenshot_path)) = [Get url].
Proof. plan_cases wait_seconds selector screenshot_path n. Qed.

Lemma plan_navigation b url timeout wait_seconds selector screenshot_path :
  filter is_get (fetch_plan b url timeout wait_seconds selector screenshot_path)
  = [Get url].
Proof.
  unfold fetch_plan, page_stages, wait_stages, screenshot_stage.
  destruct (PrimFloat.ltb 0 wait_seconds);
    (destruct selector as [s|]; [destruct (Str.truthy s)|]);
    (destruct screenshot_path as [p|]; [destruct (Str.truthy p)|]);
    reflexivity.
Qed.

(** In every initial segment of the plan there is at most one sleep, of
    the seconds given, which are then positive. *)
Lemma plan_sleeps b url timeout wait_seconds selector screenshot_path n :
  filter is_sleep (firstn n (fetch_plan b url timeout wait_seconds selector
                                        screenshot_path)) = []
  \/
  (PrimFloat.ltb 0%float wait_seconds = true /\
   filter is_sleep (firstn n (fetch_plan b url timeout wait_seconds selector
                                         screenshot_path))
   = [Sleep wait_seconds]).
Proof.
  unfold fetch_plan, page_stages, wait_stages, screenshot_stage;
  destruct (PrimFloat.ltb 0 wait_seconds);
  (destruct selector as [s|]; [destruct (Str.truthy s)|]);
  (destruct screenshot_path as [p|]; [destruct (Str.truthy p)|]);
  simpl; do 9 (try (destruct n as [|n]; [simpl; auto|])); simpl; auto.
Qed.

Lemma plan_sleep b url timeout wait_seconds selector screenshot_path :
  filter is_sleep (fetch_plan b url timeout wait_seconds selector screenshot_path)
  = if PrimFloat.ltb 0%float wait_seconds then [Sleep wait_seconds] else [].
Proof.
  unfold fetch_plan, page_stages, wait_stages, screenshot_stage.
  destruct (PrimFloat.ltb 0 wait_seconds);
    (destruct selector as [s|]; [destruct (Str.truthy s)|]);
    (destruct screenshot_path as [p|]; [destruct (Str.truthy p)|]);
    reflexivity.
Qed.

Lemma tail_filter (f : call -> bool) (tail reads : list call) (n : nat) :
  f Quit = false ->
  (n = 1 /\ reads = [] /\ tail = []) \/ (2 <= n /\ tail = [Quit]) ->
  filter f tail = [].
Proof. intros H [(_ & _ & ->) | (_ & ->)]; simpl; [|rewrite H]; reflexivity. Qed.

(** X8.  A fetch navigates at most once, and only to the URL it was
    given; a fetch that returns has navigated exactly once.  So does a
    run of [main], to the stripped URL. *)
Theorem fetch_navigates_once_to_the_url :
  (forall b url timeout wait_seconds selector as_text screenshot_path st,
   exists cs,
     history (snd (fetch b url timeout wait_seconds selector as_text
                         screenshot_path st)) = history st ++ cs /\
     (filter is_get cs = [] \/ filter is_get cs = [Get url]) /\
     (forall content,
        fst (fetch b url timeout wait_seconds selector as_text
                   screenshot_path st) = Ok content ->
        filter is_get cs = [Get url])) /\
  (forall b args st,
   exists cs,
     history (snd (main b args st)) = history st ++ cs /\
     (filter is_get cs = [] \/
      filter is_get cs = [Get (Str.strip (arg_url args))])).
Proof.
  assert (F : forall b url timeout wait_seconds selector as_text
                     screenshot_path st,
             exists cs,
               history (snd (fetch b url timeout wait_seconds selector as_text
                                   screenshot_path st)) = history st ++ cs /\
               (filter is_get cs = [] \/ filter is_get cs = [Get url]) /\
               (forall content,
                  fst (fetch b url timeout wait_seconds selector as_text
                             screenshot_path st) = Ok content ->
                  filter is_get cs = [Get url])).
  { intros.
    destruct (fetch_calls b url timeout wait_seconds selector as_text
                screenshot_path st) as (n & reads & tail & E & R & T & W & O).
    eexists. split; [exact E|].
    assert (Rd : filter is_get reads = []).
    { apply (reads_filter _ R). intros c. destruct c; simpl; tauto. }
    assert (Tl : filter is_get tail = [])
      by (eapply tail_filter; eauto).
    rewrite !filter_app, Rd, Tl, !app_nil_r. split.
    - apply plan_navigations.
    - intros content H. destruct (O content H) as [N _].
      rewrite (W N). apply plan_navigation. }
  split; [exact F|].
  intros b args st. pose proof (main_run b args st) as R.
  destruct (validate_url (arg_url args)) as [u|e] eqn:V.
  - cbv zeta in R. destruct R as [L _].
    apply validate_url_ok in V as (-> & _).
    destruct (F b (Str.strip (arg_url args)) (arg_timeout args) (arg_wait args)
                (arg_selector args) (arg_text args) (arg_screenshot args) st)
      as (cs & E & H & _).
    exists cs. split; [|exact H]. unfold history in *. rewrite L. exact E.
  - destruct R as (_ & L & _). exists []. unfold history. rewrite L, app_nil_r.
    auto.
Qed.

Lemma fetch_navigates_once_to_the_url_witness :
  exists cs,
    history (snd (fetch (serve two_paragraphs no_faults) "http://example.com" 20
                        0%float (Some "p") false None initial))
    = history initial ++ cs /\
    filter is_get cs = [Get "http://example.com"].
Proof.
  destruct (proj1 fetch_navigates_once_to_the_url
              (serve two_paragraphs no_faults) "http://example.com" 20%Z
              0%float (Some "p") false None initial) as (cs & E & _ & H).
  exists cs. split; [exact E|]. eapply H. vm_compute. reflexivity.
Defined.

(** X9.  A fetch sleeps at most once, for the seconds given, and only
    when these are greater than zero: with zero, a negative number or a
    NaN it never sleeps.  A fetch that returns with positive seconds has
    slept once. *)
Theorem fetch_sleeps_only_for_positive_seconds :
  forall b url timeout wait_seconds selector as_text screenshot_path st,
  exists cs,
    history (snd (fetch b url timeout wait_seconds selector as_text
                        screenshot_path st)) = history st ++ cs /\
    (filter is_sleep cs = [] \/
     (PrimFloat.ltb 0%float wait_seconds = true /\
      filter is_sleep cs = [Sleep wait_seconds])) /\
    (forall content,
       fst (fetch b url timeout wait_seconds selector as_text
                  screenshot_path st) = Ok content ->
       filter is_sleep cs
       = if PrimFloat.ltb 0%float wait_seconds then [Sleep wait_seconds] else []).
Proof.
  intros.
  destruct (fetch_calls b url timeout wait_seconds selector as_text
              screenshot_path st) as (n & reads & tail & E & R & T & W & O).
  eexists. split; [exact E|].
  assert (Rd : filter is_sleep reads = []).
  { apply (reads_filter _ R). intros c. destruct c; simpl; tauto. }
  assert (Tl : filter is_sleep tail = [])
    by (eapply tail_filter; eauto).
  rewrite !filter_app, Rd, Tl, !app_nil_r. split.
  - apply plan_sleeps.
  - intros content H. destruct (O content H) as [N _].
    rewrite (W N). apply plan_sleep.
Qed.

Lemma fetch_sleeps_only_for_positive_seconds_witness :
  exists cs,
    history (snd (fetch (serve two_paragraphs no_faults) "http://example.com" 20
                        nan (Some "p") false None initial))
    = history initial ++ cs /\
    filter is_sleep cs = [].
Proof.
  destruct (fetch_sleeps_only_for_positive_seconds
              (serve two_paragraphs no_faults) "http://example.com" 20
              nan (Some "p") false None initial) as (cs & E & _ & H).
  exists cs. split; [exact E|].
  eapply eq_trans; [eapply H; vm_compute; reflexivity | reflexivity].
Defined.

(** ** Failures of a stage *)

(** An event of a stage that raised what the stage does not swallow is
    the last of the stages, and its exception is their outcome. *)
Lemma unswallowed_event_ends_stages url timeout wait_seconds selector
    screenshot_path evs r c e :
  stages_outcome
    (page_stages url timeout wait_seconds selector screenshot_path) evs r ->
  In (mk_event c (Some e)) evs ->
  (is_wait c -> is_TimeoutException e = false) ->
  r = Raise e /\ exists evs1, evs = evs1 ++ [mk_event c (Some e)].
Proof.
  set (P := page_stages url timeout wait_seconds selector screenshot_path).
  assert (Hpass : forall evs1 p1,
             Forall2 passed evs1 p1 -> (forall sg, In sg p1 -> In sg P) ->
             In (mk_event c (Some e)) evs1 ->
             (is_wait c -> is_TimeoutException e = false) -> False).
  { intros evs1 p1 F Sub I NW.
    destruct (@Forall2_In_l _ _ _ _ _ _ F I) as (sg & Isg & Hc & Hsw).
    simpl in Hc, Hsw. apply Sub in Isg. unfold P in Isg.
    apply page_stages_swallow in Isg as [[_ S]|[Wt S]].
    - rewrite S in Hsw. discriminate.
    - rewrite <- Hc in Wt. rewrite S, (NW Wt) in Hsw. discriminate. }
  intros [Hall | p1 sg p2 evs1 e' Hp -> H1 Hsw] I NW.
  - exfalso. eapply Hpass; eauto.
  - apply in_app_or in I as [I|[I|[]]].
    + exfalso. eapply Hpass; eauto. intros sg' I'. fold P in Hp. rewrite Hp.
      apply in_or_app. auto.
    + injection I as -> ->. eauto.
Qed.

(** X10.  Any call of lines 113-142 that raises ends the fetch, except a
    wait that raises [TimeoutException]: the fetch raises that exception,
    and the only call made after the one that failed is [quit].  This
    holds of the page-load timeout, navigation, the fixed wait and the
    screenshot, and of a wait that raises anything else than a timeout
    (an invalid selector, a lost session). *)
Theorem stage_failure_ends_fetch :
  forall b url timeout wait_seconds selector as_text screenshot_path st evs c e,
    log (snd (fetch b url timeout wait_seconds selector as_text
                    screenshot_path st)) = log st ++ evs ->
    In (mk_event c (Some e)) evs ->
    is_stage_call c ->
    (is_wait c -> is_TimeoutException e = false) ->
    fst (fetch b url timeout wait_seconds selector as_text screenshot_path st)
    = Raise e /\
    exists before q,
      evs = before ++ [mk_event c (Some e); mk_event Quit q].
Proof.
  intros b url timeout wait_seconds selector as_text screenshot_path st evs c e
         E I SC NW.
  destruct (fetch_spec b url timeout wait_seconds selector as_text
              screenshot_path st) as (evs' & E' & O).
  rewrite E in E'. apply app_inv_head in E'. subst evs'.
  destruct O as [x | q evs2 x q' O2 | q evs2 evs3 r q' O2 F3 N3 X3];
    simpl in I; unfold hide_webdriver, new_chrome in I.
  - destruct I as [I|[]]. injection I as <- _. destruct SC.
  - destruct I as [I|[I|I]];
      [injection I as <- _; destruct SC | injection I as <- _; destruct SC |].
    apply in_app_or in I as [I|[I|[]]];
      [|injection I as <- _; destruct SC].
    destruct (@unswallowed_event_ends_stages _ _ _ _ _ _ _ _ _ O2 I NW)
      as (R & evs1 & ->).
    injection R as ->. split; [reflexivity|].
    exists ([mk_event (new_chrome b true) None; mk_event hide_webdriver q]
              ++ evs1), q'.
    rewrite <- !app_assoc. reflexivity.
  - destruct I as [I|[I|I]];
      [injection I as <- _; destruct SC | injection I as <- _; destruct SC |].
    apply in_app_or in I as [I|I].
    + destruct (@unswallowed_event_ends_stages _ _ _ _ _ _ _ _ _ O2 I NW)
        as (R & _). discriminate R.
    + apply in_app_or in I as [I|[I|[]]];
        [|injection I as <- _; destruct SC].
      rewrite Forall_forall in F3. apply F3 in I. unfold is_read in I.
      simpl in I. destruct c; simpl in *; contradiction.
Qed.

Lemma stage_failure_ends_fetch_witness :
  fst (fetch (serve two_paragraphs selector_is_invalid) "http://example.com" 20
             0%float (Some "p[") false None initial)
  = Raise (mk_exn WebDriverException ("Message: invalid selector" +++ Str.nl)).
Proof.
  refine (proj1 (@stage_failure_ends_fetch
                   (serve two_paragraphs selector_is_invalid)
                   "http://example.com" 20%Z 0%float (Some "p[") false None
                   initial _ (WaitPresence 20 "p[")
                   (mk_exn WebDriverException
                      ("Message: invalid selector" +++ Str.nl))
                   _ _ _ _)).
  - vm_compute. reflexivity.
  - simpl. do 5 right. left. reflexivity.
  - exact I.
  - intros _. reflexivity.
Defined.

(** ** Empty arguments *)


(** ** Elements without text *)

Lemma filter_truthy_all_empty (l : list string) :
  (forall x, In x l -> x = "") -> filter Str.truthy l = [].
Proof.
  induction l as [|x l IH]; intros H; [reflexivity|].
  simpl. rewrite (H x (or_introl eq_refl)). simpl.
  apply IH. intros y I. apply H. right. exact I.
Qed.

(** X12.  In text mode, when the selector matches elements and none of
    them has visible text, the result is the empty string: there is no
    fall-back to the whole document as there is when nothing matches. *)
Theorem matched_elements_without_text_give_empty_string :
  forall b p url timeout wait_seconds s screenshot_path st content,
    shows b p ->
    Str.truthy s = true ->
    select p s <> [] ->
    (forall e, In e (select p s) -> text p e = "") ->
    fst (fetch b url timeout wait_seconds (Some s) true screenshot_path st)
    = Ok content ->
    content = "" /\
    forall st', fst (extract_content b (Some s) true st') = Ok "".
Proof.
  intros b p url timeout wait_seconds s screenshot_path st content Sh T N Em H.
  assert (C : page_content p (Some s) true = "").
  { unfold page_content. rewrite T.
    destruct (select p s) as [|e rest] eqn:Sel; [congruence|].
    unfold selected_content. rewrite filter_truthy_all_empty; [reflexivity|].
    intros x I. apply in_map_iff in I as (e' & <- & I). apply Em, I. }
  split.
  - apply (fetch_returns_page_content Sh) in H. congruence.
  - intros st'. rewrite (extract_content_shown Sh). congruence.
Qed.

Lemma matched_elements_without_text_give_empty_string_witness :
  fst (extract_content (serve two_blank_items no_faults) (Some "li") true initial)
  = Ok "".
Proof.
  refine (proj2 (@matched_elements_without_text_give_empty_string
                   (serve two_blank_items no_faults) two_blank_items
                   "http://example.com" 20%Z 0%float "li" None initial ""
                   _ _ _ _ _) initial).
  - apply serve_no_faults_shows.
  - reflexivity.
  - discriminate.
  - intros e [<-|[<-|[]]]; reflexivity.
  - vm_compute. reflexivity.
Defined.

(** ** The whole document *)

(** When reading the whole document raises, it is [page_source] that
    raised, as the last read. *)
Lemma whole_document_blame b as_text st e :
  fst (whole_document b as_text st) = Raise e ->
  exists pre,
    snd (whole_document b as_text st)
    = logged st (pre ++ [mk_event PageSource (Some e)]).
Proof.
  unfold whole_document. destruct as_text.
  - unfold try_except. rewrite run_bind, run_invoke.
    destruct (answer_elem b (history st ++ [FindBody])) as [el|x];
      cbn beta iota.
    + rewrite run_invoke.
      destruct (answer_str b _) as [t|x] eqn:A; cbn beta iota.
      * discriminate.
      * unfold Exception. cbn beta iota. rewrite run_invoke.
        destruct (answer_str b _) as [t|y] eqn:B; simpl; [discriminate|].
        intros [= ->].
        exists [mk_event FindBody None; mk_event (GetText el) (Some x)].
        rewrite !logged_logged. reflexivity.
    + unfold Exception. cbn beta iota. rewrite run_invoke.
      destruct (answer_str b _) as [t|y] eqn:B; simpl; [discriminate|].
      intros [= ->]. exists [mk_event FindBody (Some x)].
      rewrite !logged_logged. reflexivity.
  - rewrite run_invoke.
    destruct (answer_str b _) as [t|y] eqn:B; simpl; [discriminate|].
    intros [= ->]. exists []. reflexivity.
Qed.

(** X13.  Without a selector, a failure to locate the body or to read its
    text never fails the fetch.  When such a fetch raises, the exception
    is that of one call: the browser start, a call of lines 113-142, or
    [page_source], which is then the last call before [quit]. *)
Theorem whole_document_fails_only_with_page_source :
  forall b url timeout wait_seconds as_text screenshot_path st evs e,
    log (snd (fetch b url timeout wait_seconds None as_text
                    screenshot_path st)) = log st ++ evs ->
    fst (fetch b url timeout wait_seconds None as_text screenshot_path st)
    = Raise e ->
    (exists c, (start_call c \/ is_stage_call c) /\
               In (mk_event c (Some e)) evs) \/
    (exists before q,
       evs = before ++ [mk_event PageSource (Some e); mk_event Quit q]).
Proof.
  intros b url timeout wait_seconds as_text screenshot_path st evs e.
  rewrite fetch_run, build_driver_run.
  change (history (with_driver None st)) with (history st).
  destruct (answer_unit b (history st ++ [new_chrome b true])) as [[]|x].
  - match goal with
    | |- context [open_page _ _ _ _ _ _ ?s] => set (st1 := s)
    end.
    destruct (open_page_spec b url timeout wait_seconds None
                screenshot_path st1) as (evs2 & E2 & O2).
    destruct (open_page b url timeout wait_seconds None screenshot_path st1)
      as [[[]|x] st2]; simpl in E2, O2; subst st2.
    + change (extract_content b None as_text (logged st1 evs2))
        with (whole_document b as_text (logged st1 evs2)).
      intros E R. simpl fst in R.
      destruct (whole_document_blame _ _ _ R) as (pre & W).
      right. simpl snd in E. rewrite W in E. unfold quit_quietly in E.
      simpl in E. rewrite <- !app_assoc in E. apply app_inv_head in E.
      subst evs. eexists. eexists.
      change (mk_event (new_chrome b true) None :: mk_event hide_webdriver ?q
                :: ?l) with ([mk_event (new_chrome b true) None;
                              mk_event hide_webdriver q] ++ l).
      rewrite !app_assoc. rewrite <- (app_assoc _ [_] [_]). reflexivity.
    + intros E R. simpl in R. injection R as ->. left.
      inversion O2 as [|p1 sg p2 evs1 e' Hp He H1 Hsw]; subst.
      exists (fst sg). split.
      * right.
        assert (I : In sg (page_stages url timeout wait_seconds None
                                       screenshot_path))
          by (rewrite Hp; apply in_or_app; right; left; reflexivity).
        apply page_stages_calls in I. destruct (fst sg); simpl in *; tauto.
      * unfold quit_quietly in E. simpl in E. rewrite <- !app_assoc in E.
        apply app_inv_head in E. subst evs. simpl. right. right.
        apply in_or_app. right. left. reflexivity.
  - intros E R. simpl in *. injection R as ->. left.
    exists (new_chrome b true). split; [left; exact I|].
    rewrite <- ?app_assoc in E. apply app_inv_head in E. subst evs.
    left. reflexivity.
Qed.

Lemma whole_document_fails_only_with_page_source_witness :
  (exists c, (start_call c \/ is_stage_call c) /\
             In (mk_event c (Some (mk_exn TimeoutException "Message: timeout")))
                (log (snd (fetch (serve two_paragraphs navigation_times_out)
                                 "http://example.com" 20 0%float None true None
                                 initial)))) \/
  (exists before q,
     log (snd (fetch (serve two_paragraphs navigation_times_out)
                     "http://example.com" 20 0%float None true None initial))
     = before ++ [mk_event PageSource
                    (Some (mk_exn TimeoutException "Message: timeout"));
                  mk_event Quit q]).
Proof.
  apply (@whole_document_fails_only_with_page_source
           (serve two_paragraphs navigation_times_out) "http://example.com"
           20%Z 0%float true None initial).
  - reflexivity.
  - vm_compute. reflexivity.
Defined.

(** ** Waits that run out of time, and what else fails *)


(** *** What a computation raises is what its last call raised *)












